(** * SilentSOS: gesture classifier, alert decision loop and alert dispatch

    A shallow embedding of [HelpMe.py].

    - [Classifier]: [fingers_up] and [classify_gesture].
    - [Engine]: the per-frame alert decision of [main] (the statements
      between [now = time.time()] and [active_gesture = None]).
    - [Dispatch]: [get_location] and [send_alert], in a small
      state-and-exception monad whose state records the calls made to the
      outside world and the lines appended to the log file.

    Modelling conventions.
    - Timestamps and the cooldown are Python floats; they are modelled as
      rationals with exact subtraction and comparison.
    - Gesture labels are the five string literals returned by
      [classify_gesture]; they are modelled as an enumeration, with
      [gesture_label] giving back the literal.
    - Environment variables are what [os.getenv] returned: a string, or
      [None] when unset.
    - Every call that leaves the program (geolocation, Twilio, the alert
      cue, the log file) returns or raises as the outside world decides.
    - Console output ([print]) is not modelled. *)

From Stdlib Require Import ZArith QArith Qabs Lqa Lia Bool List String.
Import ListNotations.

(** ** Values shared by the three components *)

Inductive Gesture : Type :=
| KidnapAlert
| MedicalEmergency
| DistressSOS
| TestingVSign
| CallPolice.

Definition Gesture_eq_dec (a b : Gesture) : {a = b} + {a <> b}.
Proof. decide equality. Defined.

Definition gesture_label (g : Gesture) : string :=
  match g with
  | KidnapAlert => "Kidnap Alert"
  | MedicalEmergency => "Medical Emergency"
  | DistressSOS => "Distress / SOS"
  | TestingVSign => "Testing / V-Sign"
  | CallPolice => "Call Police"
  end.

(** Python exceptions (subclasses of [Exception]).  [TwilioRestException]
    carries its optional integer [code]; every other exception class is
    kept by name only. *)
Inductive exn : Type :=
| TwilioRestException (code : option Z)
| OtherException (name : string).

(** What a Python call does: it returns a value or raises. *)
Inductive result (A : Type) : Type :=
| Returned (a : A)
| Raised (e : exn).
Arguments Returned {A} a.
Arguments Raised {A} e.

(** ** Gesture classifier *)

Module Classifier.

Local Open Scope Z_scope.

(** One MediaPipe landmark (normalised image coordinates). *)
Record Landmark : Type := { x : Q; y : Q }.

(** [hand_landmarks.landmark]: MediaPipe always delivers the 21 hand
    landmarks, so indexing is modelled as a total function. *)
Definition HandLandmarks : Type := nat -> Landmark.

Definition Qlt_bool (a b : Q) : bool := negb (Qle_bool b a).

(** [fingers_up]: the list [Thumb, Index, Middle, Ring, Pinky]. *)
Definition fingers_up (hand_landmarks : HandLandmarks) : list Z :=
  let thumb :=
    if Qlt_bool (x (hand_landmarks 4%nat)) (x (hand_landmarks 3%nat))
    then [1] else [0] in
  let finger_tips := [8; 12; 16; 20]%nat in
  let finger_pips := [6; 10; 14; 18]%nat in
  thumb ++
  map (fun '(tip, pip) =>
         if Qlt_bool (y (hand_landmarks tip)) (y (hand_landmarks pip))
         then 1 else 0)
      (combine finger_tips finger_pips).

(** The five conditions of the [if]/[elif] chain, in source order. *)
Definition cond_kidnap (thumb index middle ring pinky : Z) : bool :=
  (thumb =? 1) && (index =? 1) && (middle =? 0) && (ring =? 0) && (pinky =? 0).
Definition cond_medical (thumb index middle ring pinky : Z) : bool :=
  (index =? 1) && (middle =? 1) && (ring =? 1) && (thumb =? 0) && (pinky =? 0).
Definition cond_sos (thumb index middle ring pinky : Z) : bool :=
  (thumb =? 0) && (index =? 0) && (middle =? 0) && (ring =? 0) && (pinky =? 0).
Definition cond_vsign (thumb index middle ring pinky : Z) : bool :=
  (index =? 1) && (middle =? 1) && (ring =? 0) && (pinky =? 0).
Definition cond_police (thumb index middle ring pinky : Z) : bool :=
  (thumb =? 1) && (pinky =? 1) && (index =? 0) && (middle =? 0) && (ring =? 0).

(** [classify_gesture].  The tuple unpacking raises [ValueError] unless
    the argument has exactly five entries. *)
Definition classify_gesture (fingers : list Z) : result (option Gesture) :=
  match fingers with
  | [thumb; index; middle; ring; pinky] =>
      if cond_kidnap thumb index middle ring pinky then
        Returned (Some KidnapAlert)
      else if cond_medical thumb index middle ring pinky then
        Returned (Some MedicalEmergency)
      else if cond_sos thumb index middle ring pinky then
        Returned (Some DistressSOS)
      else if cond_vsign thumb index middle ring pinky then
        Returned (Some TestingVSign)
      else if cond_police thumb index middle ring pinky then
        Returned (Some CallPolice)
      else
        Returned None
  | _ => Raised (OtherException "ValueError")
  end.

(** The specification's [FingerState]: five booleans, [true] iff the
    finger is extended. *)
Record FingerState : Type := {
  Thumb : bool; Index : bool; Middle : bool; Ring : bool; Pinky : bool
}.

(** A [FingerState] as the list of 0/1 integers the code works on. *)
Definition encode (f : FingerState) : list Z :=
  [Z.b2z (Thumb f); Z.b2z (Index f); Z.b2z (Middle f);
   Z.b2z (Ring f); Z.b2z (Pinky f)].

(** The priority table as the specification words it (rules 1 to 6,
    first match wins).  This definition follows the specification, not
    the source; it is compared with [classify_gesture] below. *)
Definition classify_table (f : FingerState) : option Gesture :=
  let '(t, i, m, r, p) := (Thumb f, Index f, Middle f, Ring f, Pinky f) in
  (* 1. Thumb+Index extended, others folded *)
  if t && i && negb m && negb r && negb p then Some KidnapAlert
  (* 2. Index+Middle+Ring extended, Thumb and Pinky folded *)
  else if i && m && r && negb t && negb p then Some MedicalEmergency
  (* 3. all five folded *)
  else if negb t && negb i && negb m && negb r && negb p then Some DistressSOS
  (* 4. Index+Middle extended, Ring and Pinky folded, Thumb unconstrained *)
  else if i && m && negb r && negb p then Some TestingVSign
  (* 5. Thumb+Pinky extended, Index/Middle/Ring folded *)
  else if t && p && negb i && negb m && negb r then Some CallPolice
  (* 6. otherwise *)
  else None.

(** The finger state the specification calls the overlap of the Kidnap
    and V-sign patterns. *)
Definition thumb_folded_v : FingerState :=
  {| Thumb := false; Index := true; Middle := true;
     Ring := false; Pinky := false |}.

Definition all_bools : list bool := [false; true].

(** Every [FingerState], enumerated. *)
Definition all_finger_states : list FingerState :=
  flat_map (fun t =>
  flat_map (fun i =>
  flat_map (fun m =>
  flat_map (fun r =>
  map (fun p => Build_FingerState t i m r p) all_bools)
    all_bools) all_bools) all_bools) all_bools.

(** The first hand, in detection order, whose classification is a
    gesture (the [for]/[break] loop of [main]); [None] when no hand
    yields one. *)
Fixpoint first_gesture (hands : list HandLandmarks) : result (option Gesture) :=
  match hands with
  | [] => Returned None
  | hand_landmarks :: rest =>
      match classify_gesture (fingers_up hand_landmarks) with
      | Returned (Some gesture) => Returned (Some gesture)
      | Returned None => first_gesture rest
      | Raised e => Raised e
      end
  end.

End Classifier.

(** ** Alert decision (the per-frame statements of [main]) *)

Module Engine.

Local Open Scope Q_scope.

(** The three loop variables of [main]. *)
Record AlertState : Type := {
  last_sms_time : Q;
  active_gesture : option Gesture;
  total_alerts : Z
}.

(** Their values before the first frame. *)
Definition initial : AlertState :=
  {| last_sms_time := 0; active_gesture := None; total_alerts := 0%Z |}.

Inductive FireDecision : Type :=
| Fire (gesture : Gesture)
| NoOp.

(** [a > b] on timestamps. *)
Definition Qgt_bool (a b : Q) : bool := negb (Qle_bool a b).

(** [gesture_detected != active_gesture], for a detected gesture. *)
Definition differs (gesture_detected : Gesture) (active : option Gesture) : bool :=
  match active with
  | None => true
  | Some a => if Gesture_eq_dec gesture_detected a then false else true
  end.

(** One frame.  [Fire g] stands for the body of the first [if]: the
    screenshot is written and [send_alert] is called for [g]. *)
Definition evaluate (SMS_COOLDOWN : Q) (s : AlertState)
    (gesture_detected : option Gesture) (now : Q) : AlertState * FireDecision :=
  let '(s1, decision) :=
    match gesture_detected with
    | Some g =>
        if differs g (active_gesture s)
           && Qgt_bool (now - last_sms_time s) SMS_COOLDOWN
        then ({| last_sms_time := now;
                 active_gesture := Some g;
                 total_alerts := (total_alerts s + 1)%Z |}, Fire g)
        else (s, NoOp)
    | None => (s, NoOp)
    end in
  let s2 :=
    match gesture_detected with
    | None => {| last_sms_time := last_sms_time s1;
                 active_gesture := None;
                 total_alerts := total_alerts s1 |}
    | Some _ => s1
    end in
  (s2, decision).

(** What the decision loop sees of one frame. *)
Record Frame : Type := {
  detected : option Gesture;
  time : Q
}.

(** The loop state after a sequence of frames. *)
Fixpoint final (c : Q) (s : AlertState) (frames : list Frame) : AlertState :=
  match frames with
  | [] => s
  | f :: rest => final c (fst (evaluate c s (detected f) (time f))) rest
  end.

(** The [Fire] decisions only, each with the timestamp of its frame. *)
Fixpoint fires (c : Q) (s : AlertState) (frames : list Frame)
  : list (Gesture * Q) :=
  match frames with
  | [] => []
  | f :: rest =>
      let '(s', d) := evaluate c s (detected f) (time f) in
      match d with
      | Fire g => (g, time f) :: fires c s' rest
      | NoOp => fires c s' rest
      end
  end.

(** The gesture of the most recent [Fire] together with the frames
    evaluated after it ([None] as long as nothing has fired); [acc] is
    that information for the frames already processed. *)
Fixpoint since_fire (c : Q) (s : AlertState)
    (acc : option (Gesture * list Frame)) (frames : list Frame)
  : option (Gesture * list Frame) :=
  match frames with
  | [] => acc
  | f :: rest =>
      let '(s', d) := evaluate c s (detected f) (time f) in
      let acc' :=
        match d with
        | Fire g => Some (g, [])
        | NoOp =>
            match acc with
            | Some (g, after) => Some (g, after ++ [f])
            | None => None
            end
        end in
      since_fire c s' acc' rest
  end.

(** Frames that all show the same gesture, at the given times. *)
Definition held (g : Gesture) (times : list Q) : list Frame :=
  map (fun t => {| detected := Some g; time := t |}) times.

(** The five-frame scenario [None, Kidnap, Kidnap, None, Kidnap] at
    times [T, T+1, T+2, T+3, T+4]. *)
Definition scenario (T : Q) : list Frame :=
  [ {| detected := None; time := T |};
    {| detected := Some KidnapAlert; time := T + 1 |};
    {| detected := Some KidnapAlert; time := T + 2 |};
    {| detected := None; time := T + 3 |};
    {| detected := Some KidnapAlert; time := T + 4 |} ].

(** Each timestamp lies more than [c] after the one before it, and the
    first one more than [c] after [last]. *)
Fixpoint spaced (c last : Q) (ts : list Q) : Prop :=
  match ts with
  | [] => True
  | t :: rest => c < t - last /\ spaced c t rest
  end.

(** The three ways a frame can go. *)
Inductive step_case (c : Q) (s : AlertState) (d : option Gesture) (now : Q)
  : AlertState -> FireDecision -> Prop :=
| step_fire g :
    d = Some g -> active_gesture s <> Some g -> c < now - last_sms_time s ->
    step_case c s d now
      {| last_sms_time := now; active_gesture := Some g;
         total_alerts := (total_alerts s + 1)%Z |} (Fire g)
| step_blocked g :
    d = Some g -> active_gesture s = Some g \/ now - last_sms_time s <= c ->
    step_case c s d now s NoOp
| step_absent :
    d = None ->
    step_case c s d now
      {| last_sms_time := last_sms_time s; active_gesture := None;
         total_alerts := total_alerts s |} NoOp.

(** [active_gesture], when set, is the gesture of the most recent
    [Fire] (as recorded in [acc], see [since_fire]) and every frame
    evaluated after that [Fire] satisfies [P]. *)
Definition armed_since (P : Gesture -> Frame -> Prop) (s : AlertState)
    (acc : option (Gesture * list Frame)) : Prop :=
  forall g, active_gesture s = Some g ->
    exists after, acc = Some (g, after) /\ Forall (P g) after.

(** The frame shows gesture [g]. *)
Definition shows (g : Gesture) (f : Frame) : Prop := detected f = Some g.

(** The frame shows [g], or it shows some gesture at a time no later
    than [c] after [t]. *)
Definition shows_or_cooling (c t : Q) (g : Gesture) (f : Frame) : Prop :=
  detected f = Some g \/ (detected f <> None /\ time f - t <= c).

End Engine.

(** ** Alert dispatch ([get_location] and [send_alert]) *)

Module Dispatch.

Local Open Scope string_scope.

(** *** The outside world *)

(** A Twilio message resource, as far as [send_alert] reads it. *)
Record Message : Type := { sid : string; status : string }.

(** The keyword arguments of [client.messages.create]. *)
Record Request : Type := {
  body : string;
  from_ : option string;
  to : option string
}.

(** The Twilio client: [client.messages.create(...)] and
    [client.messages(sid).fetch().status].  Either call returns or
    raises. *)
Record Client : Type := {
  messages_create : Request -> result Message;
  messages_fetch : string -> result string
}.

(** What [geocoder.ip] hands back.  Coordinates are kept as the text
    the f-strings print for them. *)
Record GeoResult : Type := {
  ok : bool;
  latlng : option (string * string);
  city : option string
}.

(** Everything [send_alert] reads but does not own: the module-level
    [client] ([None] when the Twilio credentials are missing), the two
    phone numbers as [os.getenv] returned them ([None] when unset), the
    answer of the geolocation service, what the platform's
    [play_alert_sound] does, the formatted clock, and what opening
    [LOG_FILE] for appending and writing one line to it does. *)
Record Env : Type := {
  client : option Client;
  TWILIO_PHONE_NUMBER : option string;
  RECIPIENT_PHONE_NUMBER : option string;
  geocoder_ip : result GeoResult;
  play_alert_sound : result unit;
  clock : string;
  log_write : result unit
}.

Inductive Channel : Type := SMS | WhatsApp.

(** Calls that leave the program.  [MessagesCreate] is tagged with the
    call site it comes from. *)
Inductive Event : Type :=
| GeoLookup
| MessagesCreate (ch : Channel) (req : Request)
| MessagesFetch (message_sid : string)
| AlertSound.

(** One line of [LOG_FILE], field by field. *)
Record DeliveryRecord : Type := {
  timestamp : string;
  gesture_name : string;
  location_city : string;
  method_used : string;
  success : bool;
  screenshot_path : string
}.

Definition str_of_bool (b : bool) : string := if b then "True" else "False".

(** The text [f.write] receives for a record. *)
Definition render (r : DeliveryRecord) : string :=
  "[" ++ timestamp r ++ "] " ++ gesture_name r ++ " | " ++ location_city r
  ++ " | " ++ method_used r ++ ": " ++ str_of_bool (success r)
  ++ " | Screenshot: " ++ screenshot_path r ++ String (Ascii.ascii_of_nat 10) "".

(** The mutable world: the outside calls made so far, oldest first, and
    the records appended to the log file so far, oldest first. *)
Record World : Type := {
  calls : list Event;
  log : list DeliveryRecord
}.

Definition log_text (w : World) : string := concat "" (map render (log w)).

(** *** State and exceptions *)

(** A computation changes the world and returns or raises; what was
    done before a [raise] stays done. *)
Definition M (A : Type) : Type := World -> result A * World.

Definition ret {A} (a : A) : M A := fun w => (Returned a, w).

Definition bind {A B} (m : M A) (k : A -> M B) : M B :=
  fun w =>
    match m w with
    | (Returned a, w') => k a w'
    | (Raised e, w') => (Raised e, w')
    end.

Definition raise {A} (e : exn) : M A := fun w => (Raised e, w).

(** [try: m except ... as e: h e]; a handler that does not match
    re-raises. *)
Definition try_except {A} (m : M A) (h : exn -> M A) : M A :=
  fun w =>
    match m w with
    | (Returned a, w') => (Returned a, w')
    | (Raised e, w') => h e w'
    end.

(** An outside call: recorded, then it returns or raises as the world
    decides. *)
Definition call {A} (ev : Event) (r : result A) : M A :=
  fun w => (r, {| calls := calls w ++ [ev]; log := log w |}).

(** [with open(LOG_FILE, "a") as f: f.write(...)].  The statement is
    outside any [try]: when the file cannot be opened or written it
    raises, and no record is appended. *)
Definition append_log (write : result unit) (r : DeliveryRecord) : M unit :=
  fun w =>
    match write with
    | Returned _ => (Returned tt, {| calls := calls w; log := log w ++ [r] |})
    | Raised e => (Raised e, w)
    end.

Declare Scope dispatch_scope.
Delimit Scope dispatch_scope with dispatch.
Notation "x <- m ;; k" := (bind m (fun x => k))
  (at level 61, m at next level, right associativity) : dispatch_scope.
Notation "' pat <- m ;; k" := (bind m (fun x => match x with pat => k end))
  (at level 61, pat pattern, m at next level, right associativity)
  : dispatch_scope.
Local Open Scope dispatch_scope.

(** *** The code *)

Definition fallback_location : string * string * string :=
  ("17.3918", "78.4752", "Hyderabad").

(** [g.city or "Unknown"]. *)
Definition city_or_unknown (c : option string) : string :=
  match c with
  | Some "" | None => "Unknown"
  | Some name => name
  end.

(** [get_location]: the lookup is tried once; any exception, a result
    that is not [ok], or coordinates that cannot be unpacked lead to
    the Hyderabad fallback. *)
Definition get_location (env : Env) : M (string * string * string) :=
  r <- try_except
         (g <- call GeoLookup (geocoder_ip env) ;;
          if ok g then
            match latlng g with
            | Some (lat, lon) => ret (Some (lat, lon, city_or_unknown (city g)))
            | None => raise (OtherException "TypeError")
            end
          else ret None)
         (fun _ => ret None) ;;
  match r with
  | Some loc => ret loc
  | None => ret fallback_location
  end.

(** [status in ("sent", "delivered", "queued")]. *)
Definition accepted_status (s : string) : bool :=
  existsb (String.eqb s) ["sent"; "delivered"; "queued"].

(** [e.code == 30004]. *)
Definition code_is_30004 (code : option Z) : bool :=
  match code with
  | Some n => (n =? 30004)%Z
  | None => false
  end.

Definition alarm : string := String (Ascii.ascii_of_nat 240)
  (String (Ascii.ascii_of_nat 159) (String (Ascii.ascii_of_nat 154)
  (String (Ascii.ascii_of_nat 168) ""))).

Definition make_body (gesture lat lon town : string) : string :=
  alarm ++ " " ++ gesture ++ " at " ++ town
  ++ ". Map: https://maps.google.com/?q=" ++ lat ++ "," ++ lon.

Definition sms_request (env : Env) (text : string) : Request :=
  {| body := text;
     from_ := TWILIO_PHONE_NUMBER env;
     to := RECIPIENT_PHONE_NUMBER env |}.

(** ["whatsapp:" + RECIPIENT_PHONE_NUMBER]: concatenating a string with
    [None] raises [TypeError]. *)
Definition whatsapp_address (recipient : option string) : M string :=
  match recipient with
  | Some number => ret ("whatsapp:" ++ number)
  | None => raise (OtherException "TypeError")
  end.

Definition whatsapp_request (address : string) (text : string) : Request :=
  {| body := text;
     from_ := Some "whatsapp:+14155238886";
     to := Some address |}.

(** [send_alert].  The [if client:] block yields the final values of
    the two locals [success] and [method_used]. *)
Definition send_alert (env : Env) (screenshot_path : string)
    (gesture_name : string) : M unit :=
  let timestamp := clock env in
  '(lat, lon, city) <- get_location env ;;
  let body := make_body gesture_name lat lon city in
  '(success, method_used) <-
    match client env with
    | Some client =>
        try_except
          (* --- Try SMS first --- *)
          (message <- call (MessagesCreate SMS (sms_request env body))
                           (messages_create client (sms_request env body)) ;;
           status <- call (MessagesFetch (sid message))
                          (messages_fetch client (sid message)) ;;
           ret (accepted_status status, "SMS"))
          (fun e =>
             match e with
             | TwilioRestException code =>
                 if code_is_30004 code then
                   try_except
                     (address <- whatsapp_address (RECIPIENT_PHONE_NUMBER env) ;;
                      whatsapp_msg <-
                        call (MessagesCreate WhatsApp
                                (whatsapp_request address body))
                             (messages_create client
                                (whatsapp_request address body)) ;;
                      ret (true, "WhatsApp"))
                     (fun we => ret (false, "WhatsApp"))
                 else ret (false, "SMS")
             | OtherException _ => raise e
             end)
    | None => ret (false, "SMS")
    end ;;
  (* Play local alarm *)
  _ <- call AlertSound (play_alert_sound env) ;;
  (* Log to file *)
  append_log (log_write env)
             {| timestamp := timestamp;
                gesture_name := gesture_name;
                location_city := city;
                method_used := method_used;
                success := success;
                screenshot_path := screenshot_path |}.

(** *** Vocabulary for the statements *)

(** The location [get_location] settles on. *)
Definition location_of (env : Env) : string * string * string :=
  match geocoder_ip env with
  | Returned g =>
      if ok g then
        match latlng g with
        | Some (lat, lon) => (lat, lon, city_or_unknown (city g))
        | None => fallback_location
        end
      else fallback_location
  | Raised _ => fallback_location
  end.

(** The message text of a dispatch. *)
Definition alert_body (env : Env) (gesture : string) : string :=
  let '(lat, lon, town) := location_of env in make_body gesture lat lon town.

(** How the primary attempt (create, then fetch the status) ends. *)
Definition primary_outcome (env : Env) (cl : Client) (gesture : string)
  : result string :=
  match messages_create cl (sms_request env (alert_body env gesture)) with
  | Returned message => messages_fetch cl (sid message)
  | Raised e => Raised e
  end.

(** The primary attempt is made and ends in the blocked rejection,
    [TwilioRestException] with code 30004. *)
Definition primary_blocked (env : Env) (gesture : string) : bool :=
  match client env with
  | Some cl =>
      match primary_outcome env cl gesture with
      | Raised (TwilioRestException code) => code_is_30004 code
      | _ => false
      end
  | None => false
  end.

(** The primary attempt ends in an exception that is not a
    [TwilioRestException]. *)
Definition primary_foreign_failure (env : Env) (gesture : string) : bool :=
  match client env with
  | Some cl =>
      match primary_outcome env cl gesture with
      | Raised (OtherException _) => true
      | _ => false
      end
  | None => false
  end.

Definition is_create (ch : Channel) (ev : Event) : bool :=
  match ev, ch with
  | MessagesCreate SMS _, SMS => true
  | MessagesCreate WhatsApp _, WhatsApp => true
  | _, _ => false
  end.

(** Number of send attempts on a channel among some calls. *)
Definition attempts (ch : Channel) (evs : list Event) : nat :=
  List.length (filter (is_create ch) evs).

Definition is_twilio_call (ev : Event) : bool :=
  match ev with
  | MessagesCreate _ _ | MessagesFetch _ => true
  | _ => false
  end.

Definition empty_world : World := {| calls := []; log := [] |}.

Definition returns {A : Type} (r : result A) : bool :=
  match r with
  | Returned _ => true
  | Raised _ => false
  end.

(** Nothing raises out of a dispatch: the SMS attempt does not end in
    an exception other than [TwilioRestException], the alert cue
    returns and the log file can be written. *)
Definition completes (env : Env) (gesture : string) : bool :=
  negb (primary_foreign_failure env gesture)
  && returns (play_alert_sound env)
  && returns (log_write env).

(** The fallback is taken and leads to a WhatsApp send: the SMS attempt
    was blocked and a recipient number is set. *)
Definition whatsapp_sent_to (env : Env) (gesture : string) : bool :=
  primary_blocked env gesture
  && match RECIPIENT_PHONE_NUMBER env with Some _ => true | None => false end.

(** A dispatch returns normally and leaves exactly one new record. *)
Definition appends_one_record (env : Env) (shot gesture : string) (w : World)
  : Prop :=
  exists r,
    fst (send_alert env shot gesture w) = Returned tt /\
    log (snd (send_alert env shot gesture w)) = (log w ++ [r])%list.

(** The Twilio calls of the primary attempt: the create call, and the
    status fetch when the create call returned. *)
Definition primary_calls (env : Env) (cl : Client) (gesture : string)
  : list Event :=
  let req := sms_request env (alert_body env gesture) in
  match messages_create cl req with
  | Returned message => [MessagesCreate SMS req; MessagesFetch (sid message)]
  | Raised _ => [MessagesCreate SMS req]
  end.

(** The WhatsApp send of a dispatch, for a recipient number. *)
Definition whatsapp_send (env : Env) (gesture number : string) : Request :=
  whatsapp_request ("whatsapp:" ++ number) (alert_body env gesture).

Definition whatsapp_call (env : Env) (gesture number : string) : Event :=
  MessagesCreate WhatsApp (whatsapp_send env gesture number).

(** The paths through the [if client:] block: how it ends (the locals
    [success] and [method_used], or an exception that escapes) and the
    Twilio calls it makes. *)
Inductive path (env : Env) (gesture : string)
  : result (bool * string) -> list Event -> Prop :=
| path_unconfigured :
    client env = None ->
    path env gesture (Returned (false, "SMS")) []
| path_sms cl st :
    client env = Some cl ->
    primary_outcome env cl gesture = Returned st ->
    path env gesture (Returned (accepted_status st, "SMS"))
         (primary_calls env cl gesture)
| path_rejected cl code :
    client env = Some cl ->
    primary_outcome env cl gesture = Raised (TwilioRestException code) ->
    code_is_30004 code = false ->
    path env gesture (Returned (false, "SMS")) (primary_calls env cl gesture)
| path_whatsapp_sent cl code number whatsapp_msg :
    client env = Some cl ->
    primary_outcome env cl gesture = Raised (TwilioRestException code) ->
    code_is_30004 code = true ->
    RECIPIENT_PHONE_NUMBER env = Some number ->
    messages_create cl (whatsapp_send env gesture number) = Returned whatsapp_msg ->
    path env gesture (Returned (true, "WhatsApp"))
         (primary_calls env cl gesture ++ [whatsapp_call env gesture number])
| path_whatsapp_failed cl code number we :
    client env = Some cl ->
    primary_outcome env cl gesture = Raised (TwilioRestException code) ->
    code_is_30004 code = true ->
    RECIPIENT_PHONE_NUMBER env = Some number ->
    messages_create cl (whatsapp_send env gesture number) = Raised we ->
    path env gesture (Returned (false, "WhatsApp"))
         (primary_calls env cl gesture ++ [whatsapp_call env gesture number])
| path_whatsapp_unaddressed cl code :
    client env = Some cl ->
    primary_outcome env cl gesture = Raised (TwilioRestException code) ->
    code_is_30004 code = true ->
    RECIPIENT_PHONE_NUMBER env = None ->
    path env gesture (Returned (false, "WhatsApp")) (primary_calls env cl gesture)
| path_escapes cl name :
    client env = Some cl ->
    primary_outcome env cl gesture = Raised (OtherException name) ->
    path env gesture (Raised (OtherException name))
         (primary_calls env cl gesture).

(** The record [send_alert] writes for given final locals. *)
Definition record_of (env : Env) (shot gesture : string)
    (ok_flag : bool) (method : string) : DeliveryRecord :=
  {| timestamp := clock env;
     gesture_name := gesture;
     location_city := snd (location_of env);
     method_used := method;
     success := ok_flag;
     screenshot_path := shot |}.

(** What [send_alert] does around the [if client:] block, given how
    that block ended and which Twilio calls it made. *)
Definition around (env : Env) (shot gesture : string) (w : World)
    (o : result (bool * string)) (twilio : list Event) : result unit * World :=
  match o with
  | Returned (ok_flag, method) =>
      match play_alert_sound env with
      | Returned _ =>
          match log_write env with
          | Returned _ =>
              (Returned tt,
               {| calls := (calls w ++ GeoLookup :: twilio ++ [AlertSound])%list;
                  log := (log w ++ [record_of env shot gesture ok_flag method])%list |})
          | Raised e =>
              (Raised e,
               {| calls := (calls w ++ GeoLookup :: twilio ++ [AlertSound])%list;
                  log := log w |})
          end
      | Raised e =>
          (Raised e,
           {| calls := (calls w ++ GeoLookup :: twilio ++ [AlertSound])%list;
              log := log w |})
      end
  | Raised e =>
      (Raised e, {| calls := (calls w ++ GeoLookup :: twilio)%list; log := log w |})
  end.

(** *** Sample environments *)

Definition geo_down : result GeoResult := Raised (OtherException "ConnectionError").

(** No Twilio credentials; the alert sound works. *)
Definition env_unconfigured : Env :=
  {| client := None;
     TWILIO_PHONE_NUMBER := Some "+15550100";
     RECIPIENT_PHONE_NUMBER := Some "+15550111";
     geocoder_ip := geo_down;
     play_alert_sound := Returned tt;
     clock := "2024-01-01_00-00-00";
     log_write := Returned tt |}.

(** No Twilio credentials; the alert sound raises ([winsound.Beep]
    raises [RuntimeError] when the speaker cannot beep). *)
Definition env_beep_fails : Env :=
  {| client := None;
     TWILIO_PHONE_NUMBER := Some "+15550100";
     RECIPIENT_PHONE_NUMBER := Some "+15550111";
     geocoder_ip := geo_down;
     play_alert_sound := Raised (OtherException "RuntimeError");
     clock := "2024-01-01_00-00-00";
     log_write := Returned tt |}.

(** A client whose SMS are blocked (30004) and whose WhatsApp send
    returns a message whose reported status is "failed". *)
Definition blocked_client : Client :=
  {| messages_create := fun req =>
       if match to req with
          | Some address => String.prefix "whatsapp:" address
          | None => false
          end
       then Returned {| sid := "SM2"; status := "failed" |}
       else Raised (TwilioRestException (Some 30004%Z));
     messages_fetch := fun _ => Returned "queued" |}.

Definition env_blocked : Env :=
  {| client := Some blocked_client;
     TWILIO_PHONE_NUMBER := Some "+15550100";
     RECIPIENT_PHONE_NUMBER := Some "+15550111";
     geocoder_ip := geo_down;
     play_alert_sound := Returned tt;
     clock := "2024-01-01_00-00-00";
     log_write := Returned tt |}.

(** A client whose SMS is created but reported as undelivered. *)
Definition undelivered_client : Client :=
  {| messages_create := fun _ => Returned {| sid := "SM1"; status := "queued" |};
     messages_fetch := fun _ => Returned "undelivered" |}.

Definition env_undelivered : Env :=
  {| client := Some undelivered_client;
     TWILIO_PHONE_NUMBER := Some "+15550100";
     RECIPIENT_PHONE_NUMBER := Some "+15550111";
     geocoder_ip := geo_down;
     play_alert_sound := Returned tt;
     clock := "2024-01-01_00-00-00";
     log_write := Returned tt |}.

(** A client behind a dead network link: the HTTP layer raises before
    Twilio can answer. *)
Definition offline_client : Client :=
  {| messages_create := fun _ => Raised (OtherException "ConnectionError");
     messages_fetch := fun _ => Raised (OtherException "ConnectionError") |}.

Definition env_offline : Env :=
  {| client := Some offline_client;
     TWILIO_PHONE_NUMBER := Some "+15550100";
     RECIPIENT_PHONE_NUMBER := Some "+15550111";
     geocoder_ip := geo_down;
     play_alert_sound := Returned tt;
     clock := "2024-01-01_00-00-00";
     log_write := Returned tt |}.

(** Blocked SMS as in [env_blocked], and no recipient number set. *)
Definition env_blocked_no_recipient : Env :=
  {| client := Some blocked_client;
     TWILIO_PHONE_NUMBER := Some "+15550100";
     RECIPIENT_PHONE_NUMBER := None;
     geocoder_ip := geo_down;
     play_alert_sound := Returned tt;
     clock := "2024-01-01_00-00-00";
     log_write := Returned tt |}.

(** No Twilio credentials, the alert sound works, and the log file
    cannot be opened (its directory does not exist). *)
Definition env_log_unwritable : Env :=
  {| client := None;
     TWILIO_PHONE_NUMBER := Some "+15550100";
     RECIPIENT_PHONE_NUMBER := Some "+15550111";
     geocoder_ip := geo_down;
     play_alert_sound := Returned tt;
     clock := "2024-01-01_00-00-00";
     log_write := Raised (OtherException "FileNotFoundError") |}.

End Dispatch.

(** ** Start-up: the module-level [client] *)

Module Startup.

Import Dispatch.
Local Open Scope string_scope.

(** Truth value of what [os.getenv] returned: an unset variable
    ([None]) and the empty string are false. *)
Definition truthy (v : option string) : bool :=
  match v with
  | Some "" | None => false
  | Some _ => true
  end.

(** [client = None], replaced by [Client(sid, token)] when both
    credentials are true; [connect] stands for the constructor. *)
Definition startup_client (TWILIO_ACCOUNT_SID TWILIO_AUTH_TOKEN : option string)
    (connect : string -> string -> Client) : option Client :=
  match TWILIO_ACCOUNT_SID, TWILIO_AUTH_TOKEN with
  | Some account_sid, Some auth_token =>
      if truthy TWILIO_ACCOUNT_SID && truthy TWILIO_AUTH_TOKEN
      then Some (connect account_sid auth_token)
      else None
  | _, _ => None
  end.

End Startup.

(** ** How the Twilio calls are addressed *)

Module Addressing.

Import Dispatch.

(** A Twilio call of a dispatch for [gesture] is addressed as the code
    addresses it. *)
Definition well_addressed (env : Env) (gesture : string) (ev : Event) : Prop :=
  match ev with
  | MessagesCreate SMS req => req = sms_request env (alert_body env gesture)
  | MessagesCreate WhatsApp req =>
      exists number,
        RECIPIENT_PHONE_NUMBER env = Some number
        /\ req = {| body := alert_body env gesture;
                    from_ := Some "whatsapp:+14155238886"%string;
                    to := Some ("whatsapp:" ++ number)%string |}
  | MessagesFetch _ => True
  | _ => False
  end.

End Addressing.

(** ** The log file as text *)

Module LogFile.

Local Open Scope string_scope.

Definition line_feed : Ascii.ascii := Ascii.ascii_of_nat 10.

(** The string holds no line feed. *)
Fixpoint single_line (s : string) : bool :=
  match s with
  | EmptyString => true
  | String c rest => negb (Ascii.eqb c line_feed) && single_line rest
  end.

(** [a] is an initial part of [b]. *)
Definition starts_with (a b : string) : Prop := exists rest, b = a ++ rest.

End LogFile.

(** ** The frame loop ([main]) *)

Module MainLoop.

Import Classifier Engine Dispatch.
Local Open Scope string_scope.

(** The settings [main] reads: the cooldown, the screenshot directory
    and the platform's [os.path.join]. *)
Record Config : Type := {
  SMS_COOLDOWN : Q;
  OUTPUT_DIR : string;
  os_path_join : string -> string -> string
}.

(** What the outside world supplies for one pass through the [while]
    loop: whether the capture is still open, whether [cap.read()] gave a
    frame, the hands MediaPipe found in it (no hands when
    [multi_hand_landmarks] is [None]), [time.time()], the formatted
    [datetime.now()] used for the screenshot name, the world as
    [send_alert] would find it, and the key code of [cv2.waitKey(1)].
    The OpenCV and MediaPipe calls themselves are taken to return. *)
Record Tick : Type := {
  is_opened : bool;
  read_ok : bool;
  hands : list HandLandmarks;
  now : Q;
  shot_clock : string;
  env : Env;
  key : Z
}.

(** The state of a run: the three loop variables, the outside world of
    [send_alert], the paths handed to [cv2.imwrite] so far, and the
    calls of [send_alert] made so far (gesture and loop time), oldest
    first. *)
Record Session : Type := {
  alert : AlertState;
  world : World;
  screenshots : list string;
  dispatched : list (Gesture * Q)
}.

(** How the frames processed so far left the loop. *)
Inductive Exit : Type :=
| StillRunning
| LoopLeft
| Escaped (e : exn).

(** [cv2.waitKey(1) & 0xFF == ord('q')]. *)
Definition quit_key (k : Z) : bool := (Z.land k 255 =? 113)%Z.

(** The gesture the loop detects on a pass, as a frame of the decision
    loop. *)
Definition frame_of (t : Tick) : Frame :=
  {| detected := match first_gesture (hands t) with
                 | Returned gesture_detected => gesture_detected
                 | Raised _ => None
                 end;
     time := now t |}.

(** The [while] loop of [main], one [Tick] per pass.  On a [Fire] the
    loop variables are updated, the screenshot is written and
    [send_alert] is called; an exception of [send_alert] leaves the
    loop. *)
Fixpoint main_loop (cfg : Config) (ticks : list Tick) (s : Session)
  : Exit * Session :=
  match ticks with
  | [] => (StillRunning, s)
  | t :: rest =>
      if negb (is_opened t) then (LoopLeft, s)
      else if negb (read_ok t) then (LoopLeft, s)
      else
        match first_gesture (hands t) with
        | Raised e => (Escaped e, s)
        | Returned gesture_detected =>
            let '(a', decision) :=
              evaluate (SMS_COOLDOWN cfg) (alert s) gesture_detected (now t) in
            match decision with
            | Fire g =>
                let screenshot_path :=
                  os_path_join cfg (OUTPUT_DIR cfg)
                    ("screenshot_" ++ shot_clock t ++ ".jpg") in
                let '(r, w') :=
                  send_alert (env t) screenshot_path (gesture_label g) (world s) in
                let s' := {| alert := a';
                             world := w';
                             screenshots := (screenshots s ++ [screenshot_path])%list;
                             dispatched := (dispatched s ++ [(g, now t)])%list |} in
                match r with
                | Raised e => (Escaped e, s')
                | Returned _ =>
                    if quit_key (key t) then (LoopLeft, s')
                    else main_loop cfg rest s'
                end
            | NoOp =>
                let s' := {| alert := a';
                             world := world s;
                             screenshots := screenshots s;
                             dispatched := dispatched s |} in
                if quit_key (key t) then (LoopLeft, s')
                else main_loop cfg rest s'
            end
        end
  end.

(** The session [main] starts its loop with. *)
Definition fresh (w : World) : Session :=
  {| alert := initial; world := w; screenshots := []; dispatched := [] |}.

(** [main]: nothing happens when the capture cannot be opened;
    otherwise the loop runs, and [cap.release()] is reached (second
    component) exactly when the loop is left without an exception. *)
Definition main (cfg : Config) (cap_opened : bool) (ticks : list Tick)
    (w : World) : Exit * Session * bool :=
  if negb cap_opened then (LoopLeft, fresh w, false)
  else
    let '(exit, s) := main_loop cfg ticks (fresh w) in
    (exit, s, match exit with LoopLeft => true | _ => false end).

(** A pass on which the alert cue works, the log file can be written
    and the SMS attempt, for whatever gesture, does not end in an
    exception other than [TwilioRestException]. *)
Definition calm (t : Tick) : Prop :=
  play_alert_sound (env t) = Returned tt
  /\ log_write (env t) = Returned tt
  /\ forall g, primary_foreign_failure (env t) (gesture_label g) = false.

(** *** Sample run *)

Definition posix_join (a b : string) : string := a ++ "/" ++ b.

Definition cfg30 : Config :=
  {| SMS_COOLDOWN := 30; OUTPUT_DIR := "screenshots"; os_path_join := posix_join |}.

(** A hand with the thumb and the index finger up (Kidnap Alert). *)
Definition kidnap_hand : HandLandmarks :=
  fun i =>
    match i with
    | 4%nat => {| x := 0; y := 0 |}
    | 3%nat => {| x := 1; y := 0 |}
    | 8%nat => {| x := 0; y := 0 |}
    | 6%nat => {| x := 0; y := 1 |}
    | _ => {| x := 0; y := 0 |}
    end.

(** A hand with all fingers up (no gesture). *)
Definition open_hand : HandLandmarks :=
  fun i =>
    match i with
    | 4%nat | 8%nat | 12%nat | 16%nat | 20%nat => {| x := 0; y := 0 |}
    | _ => {| x := 1; y := 1 |}
    end.

Definition tick_at (e : Env) (hs : list HandLandmarks) (t : Q) (k : Z) : Tick :=
  {| is_opened := true; read_ok := true; hands := hs; now := t;
     shot_clock := "2024-01-01_00-00-00"; env := e; key := k |}.

(** Three passes: a Kidnap hand at time 100, an open hand at 101, an
    open hand followed by a Kidnap hand at 131; no Twilio credentials,
    no key pressed. *)
Definition sample_ticks : list Tick :=
  [ tick_at env_unconfigured [kidnap_hand] 100 (-1)%Z;
    tick_at env_unconfigured [open_hand] 101 (-1)%Z;
    tick_at env_unconfigured [open_hand; kidnap_hand] 131 (-1)%Z ].

End MainLoop.

(** * Properties *)

(** ** Classifier *)

Section ClassifierFacts.

Import Classifier.
Local Open Scope Z_scope.

Lemma all_finger_states_complete (f : FingerState) : In f all_finger_states.
Proof.
  destruct f as [[] [] [] [] []]; vm_compute; tauto.
Qed.

Lemma all_finger_states_length : List.length all_finger_states = 32%nat.
Proof. reflexivity. Qed.

Lemma all_finger_states_NoDup : NoDup all_finger_states.
Proof.
  unfold all_finger_states, all_bools; cbn.
  repeat (constructor;
          [ cbn; intros H;
            repeat (destruct H as [H | H]; [discriminate H |]); exact H | ]).
  constructor.
Qed.

(** What [fingers_up] returns is always the encoding of a finger state,
    so the classifier never sees anything else. *)
Lemma fingers_up_encodes (hand_landmarks : HandLandmarks) :
  exists f, fingers_up hand_landmarks = encode f.
Proof.
  unfold fingers_up; cbn [combine map app].
  exists {| Thumb := Qlt_bool (x (hand_landmarks 4%nat)) (x (hand_landmarks 3%nat));
            Index := Qlt_bool (y (hand_landmarks 8%nat)) (y (hand_landmarks 6%nat));
            Middle := Qlt_bool (y (hand_landmarks 12%nat)) (y (hand_landmarks 10%nat));
            Ring := Qlt_bool (y (hand_landmarks 16%nat)) (y (hand_landmarks 14%nat));
            Pinky := Qlt_bool (y (hand_landmarks 20%nat)) (y (hand_landmarks 18%nat)) |}.
  unfold encode; cbn [Thumb Index Middle Ring Pinky].
  repeat match goal with |- context [Qlt_bool ?a ?b] => destruct (Qlt_bool a b) end;
    reflexivity.
Qed.

(** C5. On each of the 32 finger states (there are exactly 32, listed
    without repetition in [all_finger_states]) [classify_gesture]
    returns, without raising, the gesture that the six-rule priority
    table gives.  Being a function it is deterministic; returning on
    every finger state it is total. *)
Theorem classify_gesture_table :
  (forall f : FingerState,
      classify_gesture (encode f) = Returned (classify_table f))
  /\ (forall f : FingerState, In f all_finger_states)
  /\ NoDup all_finger_states
  /\ List.length all_finger_states = 32%nat.
Proof.
  split; [| split; [| split]].
  - intros [[] [] [] [] []]; reflexivity.
  - exact all_finger_states_complete.
  - exact all_finger_states_NoDup.
  - exact all_finger_states_length.
Qed.

(** C6, as stated, fails: the state with Thumb folded, Index and Middle
    extended, Ring and Pinky folded is not classified as Kidnap Alert. *)
Lemma overlap_not_kidnap :
  classify_gesture (encode thumb_folded_v) <> Returned (Some KidnapAlert).
Proof. vm_compute; discriminate. Qed.

(** C6, amended.  That finger state is classified as Testing / V-Sign
    (with the thumb extended as well), and the Kidnap condition and the
    V-sign condition never hold together, whatever the five entries
    are: the first requires Middle folded, the second Middle extended.
    The order of the two tests therefore never decides a result. *)
Theorem overlap_is_vsign :
  classify_gesture (encode thumb_folded_v) = Returned (Some TestingVSign)
  /\ classify_gesture [1; 1; 1; 0; 0] = Returned (Some TestingVSign)
  /\ (forall thumb index middle ring pinky,
         cond_kidnap thumb index middle ring pinky
         && cond_vsign thumb index middle ring pinky = false).
Proof.
  split; [reflexivity | split; [reflexivity |]].
  intros thumb index middle ring pinky.
  unfold cond_kidnap, cond_vsign.
  destruct (middle =? 0) eqn:E0, (middle =? 1) eqn:E1;
    [ apply Z.eqb_eq in E0, E1; lia | | | ];
    destruct (thumb =? 1), (index =? 1), (ring =? 0), (pinky =? 0);
    reflexivity.
Qed.

End ClassifierFacts.

(** ** Alert decision *)

Section EngineFacts.

Import Engine.
Local Open Scope Q_scope.

Lemma Qgt_bool_true (a b : Q) : Qgt_bool a b = true <-> b < a.
Proof.
  unfold Qgt_bool. rewrite negb_true_iff.
  destruct (Qle_bool a b) eqn:E.
  - apply Qle_bool_iff in E. split; [discriminate | intros H; lra].
  - split; [intros _ | reflexivity].
    destruct (Qlt_le_dec b a) as [H | H]; [exact H |].
    apply Qle_bool_iff in H. congruence.
Qed.

Lemma Qgt_bool_false (a b : Q) : Qgt_bool a b = false <-> a <= b.
Proof.
  destruct (Qgt_bool a b) eqn:E.
  - apply Qgt_bool_true in E. split; [discriminate | intros H; lra].
  - split; [intros _ | reflexivity].
    destruct (Qlt_le_dec b a) as [H | H]; [| exact H].
    apply Qgt_bool_true in H. congruence.
Qed.

Lemma differs_false (g : Gesture) (a : option Gesture) :
  differs g a = false <-> a = Some g.
Proof.
  unfold differs. destruct a as [a |].
  - destruct (Gesture_eq_dec g a) as [-> | Hne].
    + tauto.
    + split; [discriminate | intros [= ->]; contradiction].
  - split; discriminate.
Qed.

Lemma differs_true (g : Gesture) (a : option Gesture) :
  differs g a = true <-> a <> Some g.
Proof.
  rewrite <- differs_false. destruct (differs g a); split; congruence.
Qed.

Lemma evaluate_case (c : Q) (s : AlertState) (d : option Gesture) (now : Q) :
  step_case c s d now (fst (evaluate c s d now)) (snd (evaluate c s d now)).
Proof.
  unfold evaluate. destruct d as [g |]; [| now constructor].
  destruct (differs g (active_gesture s)) eqn:Ed; cbn [andb].
  - destruct (Qgt_bool (now - last_sms_time s) c) eqn:Ec; cbn [fst snd].
    + apply step_fire; [reflexivity | now apply differs_true | now apply Qgt_bool_true].
    + apply step_blocked with g; [reflexivity | right; now apply Qgt_bool_false].
  - cbn [fst snd]. apply step_blocked with g; [reflexivity |].
    left; now apply differs_false.
Qed.

(** Unfolding equations of the frame-list functions, in terms of the
    two projections of [evaluate]. *)
Lemma fires_cons (c : Q) (s : AlertState) (f : Frame) (rest : list Frame) :
  fires c s (f :: rest) =
  match snd (evaluate c s (detected f) (time f)) with
  | Fire g => (g, time f) :: fires c (fst (evaluate c s (detected f) (time f))) rest
  | NoOp => fires c (fst (evaluate c s (detected f) (time f))) rest
  end.
Proof.
  cbn [fires]. destruct (evaluate c s (detected f) (time f)); reflexivity.
Qed.

Lemma since_fire_cons (c : Q) (s : AlertState) acc (f : Frame) (rest : list Frame) :
  since_fire c s acc (f :: rest) =
  since_fire c (fst (evaluate c s (detected f) (time f)))
    match snd (evaluate c s (detected f) (time f)) with
    | Fire g => Some (g, [])
    | NoOp => match acc with
              | Some (g, after) => Some (g, after ++ [f])
              | None => None
              end
    end rest.
Proof.
  cbn [since_fire]. destruct (evaluate c s (detected f) (time f)); reflexivity.
Qed.

(** Successive fires are more than the cooldown apart. *)
Lemma fires_spaced (c : Q) (frames : list Frame) :
  forall s, spaced c (last_sms_time s) (map snd (fires c s frames)).
Proof.
  induction frames as [| f rest IH]; intros s; [exact I |].
  rewrite fires_cons.
  destruct (evaluate_case c s (detected f) (time f)) as [g Hd Ha Hc | g Hd Hb | Hd].
  - cbn [map snd spaced]. split; [exact Hc | apply (IH {| last_sms_time := time f |})].
  - apply IH.
  - apply (IH {| last_sms_time := last_sms_time s |}).
Qed.

Lemma spaced_all (c : Q) (ts : list Q) :
  0 <= c -> forall last t, spaced c last ts -> In t ts -> c < t - last.
Proof.
  intros Hc. induction ts as [| a rest IH]; intros last t Hs Hin; [contradiction |].
  destruct Hs as [Ha Hrest]. destruct Hin as [-> | Hin]; [exact Ha |].
  specialize (IH a t Hrest Hin). lra.
Qed.

Lemma spaced_pair (c : Q) (ts : list Q) :
  0 <= c ->
  forall last i j a b, spaced c last ts -> (i < j)%nat ->
    nth_error ts i = Some a -> nth_error ts j = Some b -> c < b - a.
Proof.
  intros Hc. induction ts as [| x rest IH]; intros last i j a b Hs Hij Hi Hj.
  - destruct i; discriminate Hi.
  - destruct Hs as [_ Hrest]. destruct j as [| j]; [lia |].
    cbn [nth_error] in Hj. destruct i as [| i].
    + injection Hi as <-.
      apply (spaced_all c rest Hc x b Hrest). eapply nth_error_In; exact Hj.
    + cbn [nth_error] in Hi. apply (IH x i j a b Hrest); [lia | exact Hi | exact Hj].
Qed.

(** C1. Whatever the frames and their timestamps, and for every
    non-negative cooldown, two different [Fire] decisions of a run never
    lie less than the cooldown apart; the later one comes more than the
    cooldown after the earlier one. *)
Theorem at_most_one_fire_per_window :
  forall (c : Q) (s : AlertState) (frames : list Frame)
         (i j : nat) (g1 g2 : Gesture) (t1 t2 : Q),
    0 <= c ->
    (i < j)%nat ->
    nth_error (fires c s frames) i = Some (g1, t1) ->
    nth_error (fires c s frames) j = Some (g2, t2) ->
    c < t2 - t1 /\ ~ Qabs (t2 - t1) < c /\ ~ Qabs (t1 - t2) < c.
Proof.
  intros c s frames i j g1 g2 t1 t2 Hc Hij Hi Hj.
  assert (H : c < t2 - t1).
  { apply (spaced_pair c (map snd (fires c s frames)) Hc (last_sms_time s) i j).
    - apply fires_spaced.
    - exact Hij.
    - rewrite nth_error_map, Hi. reflexivity.
    - rewrite nth_error_map, Hj. reflexivity. }
  split; [exact H |].
  split; intros Habs; apply Qabs_Qlt_condition in Habs; lra.
Qed.

Lemma at_most_one_fire_per_window_witness :
  let frames := [ {| detected := Some KidnapAlert; time := 100 |};
                  {| detected := Some CallPolice; time := 120 |};
                  {| detected := Some CallPolice; time := 131 |} ] in
  0 <= 30
  /\ fires 30 initial frames = [(KidnapAlert, 100); (CallPolice, 131)]
  /\ (30 < 131 - 100 /\ ~ Qabs (131 - 100) < 30 /\ ~ Qabs (100 - 131) < 30).
Proof.
  split; [discriminate |]. split; [reflexivity |].
  apply (at_most_one_fire_per_window 30 initial
           [ {| detected := Some KidnapAlert; time := 100 |};
             {| detected := Some CallPolice; time := 120 |};
             {| detected := Some CallPolice; time := 131 |} ]
           0%nat 1%nat KidnapAlert CallPolice 100 131).
  - discriminate.
  - lia.
  - reflexivity.
  - reflexivity.
Defined.

(** [evaluate], case by case. *)
Lemma evaluate_absent (c : Q) (s : AlertState) (now : Q) :
  evaluate c s None now =
  ({| last_sms_time := last_sms_time s; active_gesture := None;
      total_alerts := total_alerts s |}, NoOp).
Proof. reflexivity. Qed.

Lemma evaluate_fires (c : Q) (s : AlertState) (g : Gesture) (now : Q) :
  active_gesture s <> Some g -> c < now - last_sms_time s ->
  evaluate c s (Some g) now =
  ({| last_sms_time := now; active_gesture := Some g;
      total_alerts := (total_alerts s + 1)%Z |}, Fire g).
Proof.
  intros Ha Hc. unfold evaluate.
  apply differs_true in Ha. apply Qgt_bool_true in Hc.
  rewrite Ha, Hc. reflexivity.
Qed.

Lemma evaluate_held (c : Q) (s : AlertState) (g : Gesture) (now : Q) :
  active_gesture s = Some g -> evaluate c s (Some g) now = (s, NoOp).
Proof.
  intros Ha. unfold evaluate. apply differs_false in Ha. rewrite Ha. reflexivity.
Qed.

Lemma evaluate_cooling (c : Q) (s : AlertState) (g : Gesture) (now : Q) :
  now - last_sms_time s <= c -> evaluate c s (Some g) now = (s, NoOp).
Proof.
  intros Hc. unfold evaluate. apply Qgt_bool_false in Hc. rewrite Hc.
  rewrite andb_false_r. reflexivity.
Qed.


Lemma final_app (c : Q) (a b : list Frame) :
  forall s, final c s (a ++ b) = final c (final c s a) b.
Proof.
  induction a as [| f a IH]; intros s; [reflexivity | cbn [app final]; apply IH].
Qed.

(** While the same gesture stays armed nothing fires. *)
Lemma held_quiet (c : Q) (s : AlertState) (g : Gesture) (ts : list Q) :
  active_gesture s = Some g ->
  fires c s (held g ts) = [] /\ final c s (held g ts) = s.
Proof.
  intros Ha. induction ts as [| t ts [IHf IHs]]; [split; reflexivity |].
  unfold held in *. cbn [map final]. rewrite fires_cons. cbn [detected time].
  rewrite (evaluate_held c s g t Ha). cbn [fst snd]. split; assumption.
Qed.







(** C2, as stated, fails.  [last_sms_time] starts at 0.0, not unset, so
    with cooldown 30 a gesture first seen at time 1 does not fire, and
    the five-frame scenario at times 0..4 produces no [Fire] at all. *)
Lemma first_frame_scenario_silent :
  snd (evaluate 30 initial (Some KidnapAlert) 1) = NoOp
  /\ fires 30 initial (scenario 0) = []
  /\ fires 30 initial (scenario 0) <> [(KidnapAlert, 1)].
Proof.
  split; [reflexivity | split; [reflexivity | discriminate]].
Qed.

(** C2, amended.  Before any alert [last_sms_time] is 0, so the first
    frame with a detected gesture fires exactly when its time exceeds
    the cooldown.  For the scenario [None, Kidnap, Kidnap, None, Kidnap]
    at times [T, T+1, T+2, T+3, T+4] with cooldown 30 and [T + 1 > 30],
    the run produces exactly one [Fire], of Kidnap Alert, at [T + 1]. *)
Theorem first_fire_after_cooldown_from_zero :
  forall (c now T : Q) (g : Gesture),
    30 < T + 1 ->
    (snd (evaluate c initial (Some g) now) = Fire g <-> c < now)
    /\ fires 30 initial (scenario T) = [(KidnapAlert, T + 1)].
Proof.
  intros c now T g HT. split.
  - destruct (Qlt_le_dec c now) as [H | H].
    + rewrite evaluate_fires; cbn [initial active_gesture last_sms_time snd];
        [tauto | discriminate | lra].
    + rewrite evaluate_cooling; cbn [initial last_sms_time snd];
        [| lra].
      split; [discriminate | intros H'; lra].
  - unfold scenario.
    rewrite fires_cons; cbn [detected time]; rewrite evaluate_absent; cbn [fst snd].
    rewrite fires_cons; cbn [detected time].
    rewrite evaluate_fires;
      cbn [initial active_gesture last_sms_time fst snd];
      [| discriminate | lra].
    f_equal.
    rewrite fires_cons; cbn [detected time].
    rewrite evaluate_held; cbn [active_gesture fst snd]; [| reflexivity].
    rewrite fires_cons; cbn [detected time]; rewrite evaluate_absent; cbn [fst snd].
    rewrite fires_cons; cbn [detected time].
    rewrite evaluate_cooling; cbn [last_sms_time fst snd]; [reflexivity | lra].
Qed.

Lemma first_fire_after_cooldown_from_zero_witness :
  30 < 1000 + 1
  /\ (snd (evaluate 30 initial (Some KidnapAlert) 1001) = Fire KidnapAlert
      <-> 30 < 1001)
  /\ fires 30 initial (scenario 1000) = [(KidnapAlert, 1000 + 1)].
Proof.
  split; [reflexivity |].
  apply (first_fire_after_cooldown_from_zero 30 1001 1000 KidnapAlert).
  reflexivity.
Defined.

Lemma since_fire_app (c : Q) (a b : list Frame) :
  forall s acc,
    since_fire c s acc (a ++ b)
    = since_fire c (final c s a) (since_fire c s acc a) b.
Proof.
  induction a as [| f a IH]; intros s acc; [reflexivity |].
  cbn [app final]. rewrite !since_fire_cons. apply IH.
Qed.

(** C4, as stated, fails.  Kidnap Alert fires at time 100; at time 101
    the frame shows Call Police, which the cooldown blocks.
    [active_gesture] is still Kidnap Alert although the frame after the
    fire did not show it. *)
Lemma armed_gesture_may_be_absent :
  let frames := [ {| detected := Some KidnapAlert; time := 100 |};
                  {| detected := Some CallPolice; time := 101 |} ] in
  active_gesture (final 30 initial frames) = Some KidnapAlert
  /\ since_fire 30 initial None frames
     = Some (KidnapAlert, [ {| detected := Some CallPolice; time := 101 |} ])
  /\ ~ armed_since shows (final 30 initial frames)
         (since_fire 30 initial None frames).
Proof.
  cbv zeta. split; [reflexivity | split; [reflexivity |]].
  intros H. destruct (H KidnapAlert eq_refl) as [after [Heq Hall]].
  vm_compute in Heq. injection Heq as <-.
  inversion Hall as [| ? ? Hshow _]. discriminate Hshow.
Qed.

(** C4, amended.  In every state reached from the initial one, if
    [active_gesture] is set to [g] then the most recent [Fire] is a
    [Fire g], made on a frame whose time is [last_sms_time], and every
    frame evaluated since then showed [g], or showed another gesture at
    a time no later than the cooldown after that fire. *)
Theorem active_gesture_invariant :
  forall (c : Q) (frames : list Frame) (g : Gesture),
    active_gesture (final c initial frames) = Some g ->
    exists before after,
      let fired := last_sms_time (final c initial frames) in
      frames = before ++ {| detected := Some g; time := fired |} :: after
      /\ snd (evaluate c (final c initial before) (Some g) fired) = Fire g
      /\ since_fire c initial None frames = Some (g, after)
      /\ Forall (shows_or_cooling c fired g) after.
Proof.
  intros c frames. induction frames as [| f frames IH] using rev_ind; intros g Hact.
  - discriminate Hact.
  - cbv zeta in *. rewrite final_app in *. cbn [final] in *.
    rewrite since_fire_app, since_fire_cons. cbn [since_fire].
    set (s := final c initial frames) in *.
    destruct (evaluate_case c s (detected f) (time f)) as [g' Hd Ha Hc | g' Hd Hb | Hd].
    + cbn [active_gesture last_sms_time] in *. injection Hact as <-.
      exists frames, []. repeat split.
      * destruct f as [d tm]. cbn in Hd. subst d. reflexivity.
      * fold s. rewrite (evaluate_fires c s g' (time f) Ha Hc). reflexivity.
      * constructor.
    + destruct (IH g Hact) as (before & after & Hsplit & Hfire & Hsince & Hall).
      exists before, (after ++ [f]). repeat split.
      * rewrite Hsplit at 1. rewrite <- app_assoc. reflexivity.
      * exact Hfire.
      * rewrite Hsince. reflexivity.
      * apply Forall_app. split; [exact Hall |].
        constructor; [| constructor]. unfold shows_or_cooling.
        destruct Hb as [Hheld | Hcool].
        -- left. congruence.
        -- right. split; [congruence | exact Hcool].
    + discriminate Hact.
Qed.

Lemma active_gesture_invariant_witness :
  let frames := [ {| detected := Some KidnapAlert; time := 100 |};
                  {| detected := Some CallPolice; time := 101 |} ] in
  active_gesture (final 30 initial frames) = Some KidnapAlert
  /\ exists before after,
       frames = before ++ {| detected := Some KidnapAlert; time := 100 |} :: after
       /\ snd (evaluate 30 (final 30 initial before) (Some KidnapAlert) 100)
          = Fire KidnapAlert
       /\ since_fire 30 initial None frames = Some (KidnapAlert, after)
       /\ Forall (shows_or_cooling 30 100 KidnapAlert) after.
Proof.
  cbv zeta. split; [reflexivity |].
  exact (active_gesture_invariant 30
           [ {| detected := Some KidnapAlert; time := 100 |};
             {| detected := Some CallPolice; time := 101 |} ] KidnapAlert eq_refl).
Defined.

End EngineFacts.

(** ** Alert dispatch *)

Section DispatchFacts.

Import Dispatch.
Local Open Scope string_scope.
Local Open Scope list_scope.

Lemma get_location_run (env : Env) (w : World) :
  get_location env w =
  (Returned (location_of env),
   {| calls := calls w ++ [GeoLookup]; log := log w |}).
Proof.
  unfold get_location, location_of, bind, try_except, call, ret, raise.
  destruct (geocoder_ip env) as [g | e]; [| reflexivity].
  destruct (ok g); [| reflexivity].
  destruct (latlng g) as [[lat lon] |]; reflexivity.
Qed.

(** Runs [send_alert] along the path that the equations in the context
    select, and compares with [around]. *)
Ltac run_send_alert :=
  let shot := fresh "shot" in
  let w := fresh "w" in
  intros shot w;
  unfold send_alert, around, record_of, whatsapp_call, whatsapp_send,
    whatsapp_address, bind in *;
  repeat match goal with
         | Hb : alert_body ?e ?g = _, H : context [alert_body ?e ?g] |- _ =>
             tryif constr_eq H Hb then fail else rewrite Hb in H
         | Hb : alert_body ?e ?g = _ |- context [alert_body ?e ?g] => rewrite Hb
         end;
  rewrite get_location_run;
  repeat match goal with
         | H : ?l = _ |- context [?l] => rewrite H
         end;
  unfold try_except, bind, call, ret, raise, append_log;
  repeat match goal with
         | H : ?l = _ |- context [?l] => rewrite H
         end;
  cbn [calls log fst snd];
  repeat match goal with
         | H : ?l = _ |- context [?l] => rewrite H
         end;
  cbn [calls log fst snd];
  try match goal with
      | |- context [play_alert_sound ?e] => destruct (play_alert_sound e)
      end;
  try match goal with
      | |- context [log_write ?e] => destruct (log_write e)
      end;
  cbn [calls log fst snd];
  rewrite <- ?app_assoc; reflexivity.

(** Every dispatch follows one of the paths, and does around it what
    [around] says. *)
Lemma send_alert_path (env : Env) (gesture : string) :
  exists o twilio,
    path env gesture o twilio
    /\ forall shot w, send_alert env shot gesture w = around env shot gesture w o twilio.
Proof.
  destruct (location_of env) as [[lat lon] town] eqn:Hloc.
  assert (Hbody : alert_body env gesture = make_body gesture lat lon town)
    by (unfold alert_body; rewrite Hloc; reflexivity).
  destruct (client env) as [cl |] eqn:Hcl.
  - destruct (primary_outcome env cl gesture) as [st | [code | name]] eqn:Hout.
    + exists (Returned (accepted_status st, "SMS")), (primary_calls env cl gesture).
      split; [now apply path_sms |].
      unfold primary_outcome, primary_calls in *. rewrite Hbody in *.
      destruct (messages_create cl _) as [m | e] eqn:Hcreate; [| discriminate Hout].
      run_send_alert.
    + destruct (code_is_30004 code) eqn:Hcode.
      * destruct (RECIPIENT_PHONE_NUMBER env) as [number |] eqn:Hto.
        -- destruct (messages_create cl (whatsapp_send env gesture number))
             as [wm | we] eqn:Hwa.
           ++ exists (Returned (true, "WhatsApp")),
                (primary_calls env cl gesture ++ [whatsapp_call env gesture number]).
              split; [now apply path_whatsapp_sent with code wm |].
              unfold primary_outcome, primary_calls in *. rewrite Hbody in *.
              destruct (messages_create cl (sms_request _ _)) as [m | e] eqn:Hcreate;
                [| injection Hout as ->]; run_send_alert.
           ++ exists (Returned (false, "WhatsApp")),
                (primary_calls env cl gesture ++ [whatsapp_call env gesture number]).
              split; [now apply path_whatsapp_failed with code we |].
              unfold primary_outcome, primary_calls in *. rewrite Hbody in *.
              destruct (messages_create cl (sms_request _ _)) as [m | e] eqn:Hcreate;
                [| injection Hout as ->]; run_send_alert.
        -- exists (Returned (false, "WhatsApp")), (primary_calls env cl gesture).
           split; [now apply path_whatsapp_unaddressed with code |].
           unfold primary_outcome, primary_calls in *. rewrite Hbody in *.
           destruct (messages_create cl (sms_request _ _)) as [m | e] eqn:Hcreate;
             [| injection Hout as ->]; run_send_alert.
      * exists (Returned (false, "SMS")), (primary_calls env cl gesture).
        split; [now apply path_rejected with code |].
        unfold primary_outcome, primary_calls in *. rewrite Hbody in *.
        destruct (messages_create cl (sms_request _ _)) as [m | e] eqn:Hcreate;
          [| injection Hout as ->]; run_send_alert.
    + exists (Raised (OtherException name)), (primary_calls env cl gesture).
      split; [now apply path_escapes |].
      unfold primary_outcome, primary_calls in *. rewrite Hbody in *.
      destruct (messages_create cl (sms_request _ _)) as [m | e] eqn:Hcreate;
        [| injection Hout as ->]; run_send_alert.
  - exists (Returned (false, "SMS")), [].
    split; [now apply path_unconfigured |].
    run_send_alert.
Qed.

Lemma attempts_app (ch : Channel) (a b : list Event) :
  attempts ch (a ++ b) = (attempts ch a + attempts ch b)%nat.
Proof. unfold attempts. rewrite filter_app, length_app. reflexivity. Qed.

Lemma attempts_primary_calls (env : Env) (cl : Client) (gesture : string) :
  attempts SMS (primary_calls env cl gesture) = 1%nat
  /\ attempts WhatsApp (primary_calls env cl gesture) = 0%nat.
Proof.
  unfold primary_calls. destruct (messages_create cl _); split; reflexivity.
Qed.

(** Names the cases of [path]. *)
Ltac path_cases Hp :=
  destruct Hp as [Hcl | cl st Hcl Hout | cl code Hcl Hout Hcode
                 | cl code number wm Hcl Hout Hcode Hto Hwa
                 | cl code number we Hcl Hout Hcode Hto Hwa
                 | cl code Hcl Hout Hcode Hto
                 | cl name Hcl Hout].

(** Along every path: one SMS send when a client exists; one WhatsApp
    send exactly when the SMS attempt was blocked and a recipient number
    is set; the channel name left in [method_used] is WhatsApp exactly
    when the SMS attempt was blocked; and the path raises exactly when
    the SMS attempt ended in a foreign exception. *)
Lemma path_attempts (env : Env) (gesture : string) o twilio :
  path env gesture o twilio ->
  attempts WhatsApp twilio = (if whatsapp_sent_to env gesture then 1 else 0)%nat
  /\ attempts SMS twilio = match client env with Some _ => 1 | None => 0 end%nat
  /\ (forall ok_flag method,
        o = Returned (ok_flag, method) ->
        method = if primary_blocked env gesture then "WhatsApp" else "SMS")
  /\ primary_foreign_failure env gesture
     = match o with Returned _ => false | Raised _ => true end.
Proof.
  intros Hp.
  path_cases Hp;
    unfold whatsapp_sent_to, primary_blocked, primary_foreign_failure;
    rewrite Hcl; try rewrite Hout; try rewrite Hcode; try rewrite Hto;
    cbn [andb];
    rewrite ?attempts_app;
    try (destruct (attempts_primary_calls env cl gesture) as [-> ->]);
    (split; [reflexivity | split; [reflexivity | split; [| reflexivity]]]);
    intros ok_flag method [= _ <-]; reflexivity.
Qed.

(** "Blocked" means: there is a client and the SMS attempt ended in a
    [TwilioRestException] whose code is 30004. *)
Lemma primary_blocked_iff (env : Env) (gesture : string) :
  primary_blocked env gesture = true
  <-> exists cl,
        client env = Some cl
        /\ primary_outcome env cl gesture
           = Raised (TwilioRestException (Some 30004%Z)).
Proof.
  unfold primary_blocked. split.
  - destruct (client env) as [cl |]; [| discriminate].
    destruct (primary_outcome env cl gesture) as [st | [[n |] | name]] eqn:Hout;
      try discriminate.
    cbn [code_is_30004]. intros H. apply Z.eqb_eq in H. subst n.
    exists cl. split; [reflexivity | exact Hout].
  - intros (cl & Hcl & Hout). rewrite Hcl, Hout. reflexivity.
Qed.

(** The calls and the log a dispatch leaves behind, case by case. *)
Lemma around_calls_log (env : Env) (shot gesture : string) (w : World) o twilio :
  path env gesture o twilio ->
  exists sound,
    calls (snd (around env shot gesture w o twilio))
    = calls w ++ GeoLookup :: twilio ++ sound
    /\ (sound = [] \/ sound = [AlertSound])
    /\ (completes env gesture = true ->
        exists ok_flag method,
          o = Returned (ok_flag, method)
          /\ fst (around env shot gesture w o twilio) = Returned tt
          /\ log (snd (around env shot gesture w o twilio))
             = log w ++ [record_of env shot gesture ok_flag method])
    /\ (completes env gesture = false ->
        log (snd (around env shot gesture w o twilio)) = log w
        /\ exists e, fst (around env shot gesture w o twilio) = Raised e).
Proof.
  intros Hp. destruct (path_attempts env gesture o twilio Hp) as (_ & _ & _ & Hf).
  unfold completes, around. rewrite Hf.
  destruct o as [[ok_flag method] | e]; cbn [negb andb].
  - destruct (play_alert_sound env) as [[] | e];
      [destruct (log_write env) as [[] | e] |];
      cbn [returns andb fst snd calls log];
      exists [AlertSound]; (split; [reflexivity | split; [now right |]]);
      split; intros H; try discriminate H.
    + exists ok_flag, method. repeat split.
    + split; [reflexivity | now exists e].
    + split; [reflexivity | now exists e].
  - exists []. cbn [fst snd calls log]. rewrite app_nil_r.
    split; [reflexivity | split; [now left |]].
    split; intros H; [discriminate H |].
    split; [reflexivity | now exists e].
Qed.

(** C8, as stated, fails.  With the SMS blocked (30004) and no
    recipient number set, the fallback is taken, yet building the
    address raises inside the inner [try]: no WhatsApp send is made,
    and the record reads WhatsApp, False. *)
Lemma fallback_without_recipient :
  primary_blocked env_blocked_no_recipient "Kidnap Alert" = true
  /\ attempts WhatsApp
       (calls (snd (send_alert env_blocked_no_recipient "shot.jpg"
                      "Kidnap Alert" empty_world))) = 0%nat
  /\ log (snd (send_alert env_blocked_no_recipient "shot.jpg" "Kidnap Alert"
                 empty_world))
     = [record_of env_blocked_no_recipient "shot.jpg" "Kidnap Alert"
          false "WhatsApp"].
Proof. repeat split. Qed.

(** C8, amended.  In one call of [send_alert] the WhatsApp send is made
    once if the SMS attempt ended in [TwilioRestException] with code
    30004 and a recipient number is set, and not at all otherwise; the
    SMS send is made once when a client exists, never twice; so there
    are at most two sends and none is repeated.  When nothing raises out
    of the call it returns and has appended exactly one record, which
    names WhatsApp as the channel exactly when the fallback was taken
    and SMS otherwise; when something raises out of it, nothing is
    appended. *)
Theorem fallback_protocol :
  forall (env : Env) (shot gesture : string) (w : World),
  exists new_calls,
    calls (snd (send_alert env shot gesture w)) = calls w ++ new_calls
    /\ (primary_blocked env gesture = true
        <-> exists cl,
              client env = Some cl
              /\ primary_outcome env cl gesture
                 = Raised (TwilioRestException (Some 30004%Z)))
    /\ attempts WhatsApp new_calls
       = (if primary_blocked env gesture
             && match RECIPIENT_PHONE_NUMBER env with
                | Some _ => true
                | None => false
                end
          then 1 else 0)%nat
    /\ attempts SMS new_calls
       = match client env with Some _ => 1 | None => 0 end%nat
    /\ (completes env gesture = true ->
        exists r,
          fst (send_alert env shot gesture w) = Returned tt
          /\ log (snd (send_alert env shot gesture w)) = log w ++ [r]
          /\ method_used r
             = if primary_blocked env gesture then "WhatsApp" else "SMS")
    /\ (completes env gesture = false ->
        log (snd (send_alert env shot gesture w)) = log w).
Proof.
  intros env shot gesture w.
  destruct (send_alert_path env gesture) as (o & twilio & Hp & Hrun).
  rewrite Hrun.
  destruct (path_attempts env gesture o twilio Hp) as (Hw & Hs & Hm & _).
  destruct (around_calls_log env shot gesture w o twilio Hp)
    as (sound & Hcalls & Hsound & Hyes & Hno).
  exists (GeoLookup :: twilio ++ sound).
  split; [exact Hcalls |].
  split; [apply primary_blocked_iff |].
  fold (whatsapp_sent_to env gesture).
  assert (Hz : forall ch, attempts ch sound = 0%nat)
    by (intros ch; destruct Hsound as [-> | ->]; destruct ch; reflexivity).
  change (GeoLookup :: twilio ++ sound) with ([GeoLookup] ++ twilio ++ sound).
  rewrite !attempts_app, !Hz, Hw, Hs.
  split; [cbn; lia | split; [cbn; lia | split]].
  - intros Hc. destruct (Hyes Hc) as (ok_flag & method & Ho & Hret & Hlog).
    exists (record_of env shot gesture ok_flag method).
    split; [exact Hret | split; [exact Hlog |]].
    cbn [record_of method_used]. now apply (Hm ok_flag).
  - intros Hc. apply (Hno Hc).
Qed.

Lemma fallback_protocol_witness :
  completes env_blocked "Kidnap Alert" = true
  /\ completes env_log_unwritable "Kidnap Alert" = false
  /\ (exists new_calls,
        calls (snd (send_alert env_blocked "shot.jpg" "Kidnap Alert" empty_world))
        = calls empty_world ++ new_calls
        /\ attempts WhatsApp new_calls = 1%nat
        /\ attempts SMS new_calls = 1%nat
        /\ exists r,
             fst (send_alert env_blocked "shot.jpg" "Kidnap Alert" empty_world)
             = Returned tt
             /\ log (snd (send_alert env_blocked "shot.jpg" "Kidnap Alert"
                            empty_world)) = log empty_world ++ [r]
             /\ method_used r = "WhatsApp")
  /\ log (snd (send_alert env_log_unwritable "shot.jpg" "Kidnap Alert" empty_world))
     = log empty_world.
Proof.
  split; [reflexivity | split; [reflexivity | split]].
  - destruct (fallback_protocol env_blocked "shot.jpg" "Kidnap Alert" empty_world)
      as (new_calls & Hc & _ & Hw & Hs & Hyes & _).
    exists new_calls. split; [exact Hc | split; [exact Hw | split; [exact Hs |]]].
    apply Hyes. reflexivity.
  - destruct (fallback_protocol env_log_unwritable "shot.jpg" "Kidnap Alert"
                empty_world) as (new_calls & _ & _ & _ & _ & _ & Hno).
    apply Hno. reflexivity.
Defined.

(** C7, as stated, fails.  [play_alert_sound] is called outside any
    [try]: when it raises, the exception leaves [send_alert] and the
    log is not written. *)
Lemma cue_failure_aborts_dispatch :
  fst (send_alert env_beep_fails "shot.jpg" "Kidnap Alert" empty_world)
  = Raised (OtherException "RuntimeError")
  /\ log (snd (send_alert env_beep_fails "shot.jpg" "Kidnap Alert" empty_world))
     = []
  /\ ~ appends_one_record env_beep_fails "shot.jpg" "Kidnap Alert" empty_world.
Proof.
  split; [reflexivity | split; [reflexivity |]].
  intros [r [Hret _]]. vm_compute in Hret. discriminate Hret.
Qed.

(** C7, amended.  Leaving aside a primary attempt that ends in an
    exception other than [TwilioRestException]: if the alert cue
    returns and the log file can be written, the call returns normally
    and has appended exactly one record, whether the delivery
    succeeded, failed or was not configured; if the alert cue raises,
    or the cue returns and the log write raises, that exception leaves
    the call and nothing is appended. *)
Theorem dispatch_one_record :
  forall (env : Env) (shot gesture : string) (w : World),
    primary_foreign_failure env gesture = false ->
    match play_alert_sound env, log_write env with
    | Returned _, Returned _ => appends_one_record env shot gesture w
    | Returned _, Raised e | Raised e, _ =>
        fst (send_alert env shot gesture w) = Raised e
        /\ log (snd (send_alert env shot gesture w)) = log w
    end.
Proof.
  intros env shot gesture w Hforeign.
  destruct (send_alert_path env gesture) as (o & twilio & Hp & Hrun).
  unfold appends_one_record. rewrite Hrun. unfold around.
  destruct (path_attempts env gesture o twilio Hp) as (_ & _ & _ & Hf).
  rewrite Hforeign in Hf.
  destruct o as [[ok_flag method] | e]; [| discriminate Hf].
  destruct (play_alert_sound env) as [[] | e];
    [destruct (log_write env) as [[] | e] |]; cbn [fst snd log].
  - exists (record_of env shot gesture ok_flag method). split; reflexivity.
  - split; reflexivity.
  - destruct (log_write env); split; reflexivity.
Qed.

Lemma dispatch_one_record_witness :
  primary_foreign_failure env_blocked "Kidnap Alert" = false
  /\ appends_one_record env_blocked "shot.jpg" "Kidnap Alert" empty_world
  /\ primary_foreign_failure env_beep_fails "Kidnap Alert" = false
  /\ fst (send_alert env_beep_fails "shot.jpg" "Kidnap Alert" empty_world)
     = Raised (OtherException "RuntimeError")
  /\ primary_foreign_failure env_log_unwritable "Kidnap Alert" = false
  /\ fst (send_alert env_log_unwritable "shot.jpg" "Kidnap Alert" empty_world)
     = Raised (OtherException "FileNotFoundError").
Proof.
  split; [reflexivity | split; [| split; [reflexivity | split; [| split; [reflexivity |]]]]].
  - apply (dispatch_one_record env_blocked "shot.jpg" "Kidnap Alert" empty_world).
    reflexivity.
  - apply (dispatch_one_record env_beep_fails "shot.jpg" "Kidnap Alert" empty_world).
    reflexivity.
  - apply (dispatch_one_record env_log_unwritable "shot.jpg" "Kidnap Alert"
             empty_world).
    reflexivity.
Defined.

(** The case left aside above.  The [except] clause of the SMS attempt
    names [TwilioRestException] only, whereas the WhatsApp attempt has
    [except Exception]: any other exception of the SMS attempt leaves
    [send_alert] before the alert cue and before the log is written. *)
Lemma foreign_failure_escapes (env : Env) (shot gesture : string) (w : World) :
  primary_foreign_failure env gesture = true ->
  exists name twilio,
    send_alert env shot gesture w
    = (Raised (OtherException name),
       {| calls := calls w ++ GeoLookup :: twilio; log := log w |})
    /\ ~ In AlertSound twilio.
Proof.
  intros Hforeign.
  destruct (send_alert_path env gesture) as (o & twilio & Hp & Hrun).
  rewrite Hrun. unfold primary_foreign_failure in Hforeign.
  path_cases Hp;
    rewrite Hcl in Hforeign; try rewrite Hout in Hforeign; try discriminate Hforeign.
  exists name, (primary_calls env cl gesture). split; [reflexivity |].
  unfold primary_calls. destruct (messages_create cl _); cbn;
    intros H; repeat (destruct H as [H | H]; [discriminate H |]); exact H.
Qed.

Example offline_dispatch_raises :
  send_alert env_offline "shot.jpg" "Kidnap Alert" empty_world
  = (Raised (OtherException "ConnectionError"),
     {| calls := [GeoLookup;
                  MessagesCreate SMS
                    (sms_request env_offline
                       (alert_body env_offline "Kidnap Alert"))];
        log := [] |}).
Proof. reflexivity. Qed.

(** The log write is as unguarded as the alert cue. *)
Example unwritable_log_raises :
  send_alert env_log_unwritable "shot.jpg" "Kidnap Alert" empty_world
  = (Raised (OtherException "FileNotFoundError"),
     {| calls := [GeoLookup; AlertSound]; log := [] |}).
Proof. reflexivity. Qed.

(** C9, as stated, fails.  Without credentials the record that is
    written names "SMS" as the channel, not "none". *)
Lemma unconfigured_channel_is_sms :
  log (snd (send_alert env_unconfigured "shot.jpg" "Kidnap Alert" empty_world))
  = [record_of env_unconfigured "shot.jpg" "Kidnap Alert" false "SMS"]
  /\ ~ (exists r,
          log (snd (send_alert env_unconfigured "shot.jpg" "Kidnap Alert"
                      empty_world)) = [r]
          /\ method_used r = "none" /\ success r = false).
Proof.
  split; [reflexivity |].
  intros [r [Hlog [Hm _]]]. vm_compute in Hlog. injection Hlog as <-.
  discriminate Hm.
Qed.

(** C9, amended.  Without a client, [send_alert] makes no Twilio call,
    whatever else happens: the only calls that leave the program are
    the location lookup and the alert cue, which is always sounded.
    When the cue returns and the log file can be written, the call
    returns and appends exactly one record, whose channel is "SMS" and
    whose success flag is false; otherwise it raises and appends
    nothing. *)
Theorem unconfigured_dispatch :
  forall (env : Env) (shot gesture : string) (w : World),
    client env = None ->
    calls (snd (send_alert env shot gesture w))
    = calls w ++ [GeoLookup; AlertSound]
    /\ filter is_twilio_call [GeoLookup; AlertSound] = []
    /\ (returns (play_alert_sound env) && returns (log_write env) = true ->
        fst (send_alert env shot gesture w) = Returned tt
        /\ log (snd (send_alert env shot gesture w))
           = log w ++ [record_of env shot gesture false "SMS"]
        /\ method_used (record_of env shot gesture false "SMS") = "SMS"
        /\ success (record_of env shot gesture false "SMS") = false)
    /\ (returns (play_alert_sound env) && returns (log_write env) = false ->
        (exists e, fst (send_alert env shot gesture w) = Raised e)
        /\ log (snd (send_alert env shot gesture w)) = log w).
Proof.
  intros env shot gesture w Hnone.
  destruct (send_alert_path env gesture) as (o & twilio & Hp & Hrun).
  rewrite Hrun. path_cases Hp; try congruence.
  unfold around.
  destruct (play_alert_sound env) as [[] | e];
    [destruct (log_write env) as [[] | e] |];
    cbn [returns andb fst snd calls log app];
    (split; [reflexivity | split; [reflexivity | split]]);
    intros H; try discriminate H.
  - repeat split.
  - split; [now exists e | reflexivity].
  - split; [now exists e | reflexivity].
Qed.

Lemma unconfigured_dispatch_witness :
  client env_unconfigured = None
  /\ returns (play_alert_sound env_unconfigured)
     && returns (log_write env_unconfigured) = true
  /\ calls (snd (send_alert env_unconfigured "shot.jpg" "Kidnap Alert" empty_world))
     = [GeoLookup; AlertSound]
  /\ log (snd (send_alert env_unconfigured "shot.jpg" "Kidnap Alert" empty_world))
     = [record_of env_unconfigured "shot.jpg" "Kidnap Alert" false "SMS"]
  /\ returns (play_alert_sound env_beep_fails)
     && returns (log_write env_beep_fails) = false
  /\ log (snd (send_alert env_beep_fails "shot.jpg" "Kidnap Alert" empty_world))
     = [].
Proof.
  destruct (unconfigured_dispatch env_unconfigured "shot.jpg" "Kidnap Alert"
              empty_world eq_refl) as (Hc & _ & Hyes & _).
  destruct (unconfigured_dispatch env_beep_fails "shot.jpg" "Kidnap Alert"
              empty_world eq_refl) as (_ & _ & _ & Hno).
  split; [reflexivity | split; [reflexivity | split; [exact Hc | split]]].
  - apply Hyes. reflexivity.
  - split; [reflexivity |]. apply Hno. reflexivity.
Defined.



(** The two criteria side by side: an SMS whose fetched status is
    "undelivered" is logged as a failure, a WhatsApp message whose
    reported status is "failed" is logged as a success. *)
Example criteria_side_by_side :
  log (snd (send_alert env_undelivered "shot.jpg" "Kidnap Alert" empty_world))
  = [record_of env_undelivered "shot.jpg" "Kidnap Alert" false "SMS"]
  /\ log (snd (send_alert env_blocked "shot.jpg" "Kidnap Alert" empty_world))
     = [record_of env_blocked "shot.jpg" "Kidnap Alert" true "WhatsApp"]
  /\ messages_create blocked_client
       (whatsapp_send env_blocked "Kidnap Alert" "+15550111")
     = Returned {| sid := "SM2"; status := "failed" |}.
Proof. repeat split. Qed.

End DispatchFacts.

(** * Further properties *)

(** ** Classifier *)

Section ClassifierMore.

Import Classifier.
Local Open Scope Z_scope.

Lemma cond_kidnap_true (thumb index middle ring pinky : Z) :
  cond_kidnap thumb index middle ring pinky = true
  <-> thumb = 1 /\ index = 1 /\ middle = 0 /\ ring = 0 /\ pinky = 0.
Proof. unfold cond_kidnap. rewrite !andb_true_iff, !Z.eqb_eq. tauto. Qed.

Lemma cond_medical_true (thumb index middle ring pinky : Z) :
  cond_medical thumb index middle ring pinky = true
  <-> thumb = 0 /\ index = 1 /\ middle = 1 /\ ring = 1 /\ pinky = 0.
Proof. unfold cond_medical. rewrite !andb_true_iff, !Z.eqb_eq. tauto. Qed.

Lemma cond_sos_true (thumb index middle ring pinky : Z) :
  cond_sos thumb index middle ring pinky = true
  <-> thumb = 0 /\ index = 0 /\ middle = 0 /\ ring = 0 /\ pinky = 0.
Proof. unfold cond_sos. rewrite !andb_true_iff, !Z.eqb_eq. tauto. Qed.

Lemma cond_vsign_true (thumb index middle ring pinky : Z) :
  cond_vsign thumb index middle ring pinky = true
  <-> index = 1 /\ middle = 1 /\ ring = 0 /\ pinky = 0.
Proof. unfold cond_vsign. rewrite !andb_true_iff, !Z.eqb_eq. tauto. Qed.

Lemma cond_police_true (thumb index middle ring pinky : Z) :
  cond_police thumb index middle ring pinky = true
  <-> thumb = 1 /\ index = 0 /\ middle = 0 /\ ring = 0 /\ pinky = 1.
Proof. unfold cond_police. rewrite !andb_true_iff, !Z.eqb_eq. tauto. Qed.

(** Decides the five conditions, one after the other, turning each into
    equations on the entries or into its refutation. *)
Ltac split_conditions :=
  repeat match goal with
         | |- context [cond_kidnap ?t ?i ?m ?r ?p] =>
             let E := fresh "E" in
             destruct (cond_kidnap t i m r p) eqn:E;
             [apply cond_kidnap_true in E | ]
         | |- context [cond_medical ?t ?i ?m ?r ?p] =>
             let E := fresh "E" in
             destruct (cond_medical t i m r p) eqn:E;
             [apply cond_medical_true in E | ]
         | |- context [cond_sos ?t ?i ?m ?r ?p] =>
             let E := fresh "E" in
             destruct (cond_sos t i m r p) eqn:E;
             [apply cond_sos_true in E | ]
         | |- context [cond_vsign ?t ?i ?m ?r ?p] =>
             let E := fresh "E" in
             destruct (cond_vsign t i m r p) eqn:E;
             [apply cond_vsign_true in E | ]
         | |- context [cond_police ?t ?i ?m ?r ?p] =>
             let E := fresh "E" in
             destruct (cond_police t i m r p) eqn:E;
             [apply cond_police_true in E | ]
         end.

(** X1. Whatever the landmarks, [fingers_up] returns exactly five
    entries, each 0 or 1, so [classify_gesture] never raises on what
    [fingers_up] returns. *)
Theorem fingers_up_shape :
  forall hand_landmarks : HandLandmarks,
    List.length (fingers_up hand_landmarks) = 5%nat
    /\ Forall (fun v => v = 0 \/ v = 1) (fingers_up hand_landmarks)
    /\ exists gesture,
         classify_gesture (fingers_up hand_landmarks) = Returned gesture.
Proof.
  intros hand_landmarks.
  destruct (fingers_up_encodes hand_landmarks) as [f ->].
  split; [reflexivity | split].
  - destruct f as [[] [] [] [] []];
      repeat (apply Forall_cons; [cbn; auto |]); apply Forall_nil.
  - exists (classify_table f). destruct f as [[] [] [] [] []]; reflexivity.
Qed.

(** X2. [classify_gesture] raises exactly when its argument does not
    have five entries, and what it raises then is [ValueError]; on five
    entries, whatever integers they are, it returns. *)
Theorem classify_gesture_arity :
  forall fingers : list Z,
    (List.length fingers <> 5%nat
     -> classify_gesture fingers = Raised (OtherException "ValueError"))
    /\ (List.length fingers = 5%nat
        -> exists gesture, classify_gesture fingers = Returned gesture).
Proof.
  intros fingers.
  destruct fingers as [| a [| b [| c [| d [| e [| f rest]]]]]];
    (split; [intros H; try reflexivity; cbn in H; lia
            | intros H; try (cbn in H; lia)]).
  unfold classify_gesture. split_conditions; eexists; reflexivity.
Qed.

Lemma classify_gesture_arity_witness :
  List.length [1; 1] <> 5%nat
  /\ classify_gesture [1; 1] = Raised (OtherException "ValueError")
  /\ List.length [7; 1; 1; 0; 0] = 5%nat
  /\ exists gesture, classify_gesture [7; 1; 1; 0; 0] = Returned gesture.
Proof.
  split; [cbn; lia |]. split.
  - apply (classify_gesture_arity [1; 1]). cbn; lia.
  - split; [reflexivity |].
    apply (classify_gesture_arity [7; 1; 1; 0; 0]). reflexivity.
Defined.

(** X3. On any five integers at most one of the five tests of the
    [if]/[elif] chain holds, so the order in which they are written
    never decides the result. *)
Theorem conditions_exclusive :
  forall thumb index middle ring pinky : Z,
    (List.length
       (filter (fun b : bool => b)
          [cond_kidnap thumb index middle ring pinky;
           cond_medical thumb index middle ring pinky;
           cond_sos thumb index middle ring pinky;
           cond_vsign thumb index middle ring pinky;
           cond_police thumb index middle ring pinky]) <= 1)%nat.
Proof.
  intros thumb index middle ring pinky.
  split_conditions; cbn; try lia.
Qed.

(** X4. Which inputs give which gesture.  Four gestures have a single
    pattern; Testing / V-Sign is returned for Index and Middle at 1,
    Ring and Pinky at 0 and any integer at all in the thumb position. *)
Theorem classify_gesture_preimage :
  forall fingers : list Z,
    (classify_gesture fingers = Returned (Some KidnapAlert)
     <-> fingers = [1; 1; 0; 0; 0])
    /\ (classify_gesture fingers = Returned (Some MedicalEmergency)
        <-> fingers = [0; 1; 1; 1; 0])
    /\ (classify_gesture fingers = Returned (Some DistressSOS)
        <-> fingers = [0; 0; 0; 0; 0])
    /\ (classify_gesture fingers = Returned (Some TestingVSign)
        <-> exists thumb, fingers = [thumb; 1; 1; 0; 0])
    /\ (classify_gesture fingers = Returned (Some CallPolice)
        <-> fingers = [1; 0; 0; 0; 1]).
Proof.
  intros fingers.
  assert (Hv : forall thumb, classify_gesture [thumb; 1; 1; 0; 0]
                             = Returned (Some TestingVSign)).
  { intros thumb. unfold classify_gesture.
    split_conditions; try reflexivity; try lia.
    exfalso. assert (H : cond_vsign thumb 1 1 0 0 = true) by reflexivity.
    congruence. }
  repeat split; try (intros ->; reflexivity);
    try (intros [thumb ->]; apply Hv);
    destruct fingers as [| a [| b [| c [| d [| e [| f rest]]]]]];
    try discriminate;
    unfold classify_gesture; split_conditions; try discriminate; intros _;
    try (exists a);
    repeat match goal with H : _ /\ _ |- _ => destruct H end; subst; reflexivity.
Qed.

(** X5. The hand loop of [main] never raises; it detects gesture [g]
    exactly when some hand is classified as [g] and every hand before
    it, in detection order, is classified as no gesture; it detects
    nothing exactly when every hand is classified as no gesture. *)
Theorem first_gesture_first_match :
  forall hands : list HandLandmarks,
    (exists gesture_detected, first_gesture hands = Returned gesture_detected)
    /\ (forall g,
          first_gesture hands = Returned (Some g)
          <-> exists before hand after,
                hands = before ++ hand :: after
                /\ Forall (fun h => classify_gesture (fingers_up h) = Returned None)
                          before
                /\ classify_gesture (fingers_up hand) = Returned (Some g))
    /\ (first_gesture hands = Returned None
        <-> Forall (fun h => classify_gesture (fingers_up h) = Returned None) hands).
Proof.
  induction hands as [| h rest (IHret & IHsome & IHnone)].
  - split; [now exists None | split].
    + intros g. split; [discriminate |].
      intros (before & hand & after & Heq & _). destruct before; discriminate Heq.
    + split; [constructor | reflexivity].
  - cbn [first_gesture].
    destruct (fingers_up_shape h) as (_ & _ & [[g0 |] Hc]); rewrite Hc.
    + split; [now exists (Some g0) | split].
      * intros g. split.
        -- intros [= <-]. exists [], h, rest. repeat split; [constructor | exact Hc].
        -- intros (before & hand & after & Heq & Hbefore & Hhand).
           destruct before as [| b before]; cbn in Heq; injection Heq as -> _.
           ++ congruence.
           ++ inversion Hbefore; congruence.
      * split; [discriminate |]. intros H. inversion H; congruence.
    + split; [exact IHret | split].
      * intros g. rewrite IHsome. split.
        -- intros (before & hand & after & -> & Hbefore & Hhand).
           exists (h :: before), hand, after.
           repeat split; [constructor; assumption | exact Hhand].
        -- intros (before & hand & after & Heq & Hbefore & Hhand).
           destruct before as [| b before]; cbn in Heq; injection Heq as -> Heq.
           ++ congruence.
           ++ exists before, hand, after. inversion Hbefore; subst.
              repeat split; assumption.
      * rewrite IHnone. split.
        -- intros H. constructor; assumption.
        -- intros H. inversion H; assumption.
Qed.

End ClassifierMore.

(** ** Alert decision *)

Section EngineMore.

Import Engine.
Local Open Scope Q_scope.

(** The state right after a [Fire]. *)
Lemma after_fire (c : Q) (s0 s : AlertState) (g : Gesture) (t0 : Q) :
  evaluate c s0 (Some g) t0 = (s, Fire g) ->
  s = {| last_sms_time := t0; active_gesture := Some g;
         total_alerts := (total_alerts s0 + 1)%Z |}.
Proof.
  intros Hfire. pose proof (evaluate_case c s0 (Some g) t0) as Hc.
  rewrite Hfire in Hc. cbn [fst snd] in Hc.
  inversion Hc as [g' Hd Ha Hlt Hs Hdec | |]; subst. reflexivity.
Qed.

(** X6. Debounce.  Once a gesture has fired, frames that keep showing
    it never fire again and leave the loop variables untouched, however
    much time passes. *)
Theorem debounce_hold :
  forall (c : Q) (s0 s : AlertState) (g : Gesture) (t0 : Q) (times : list Q),
    evaluate c s0 (Some g) t0 = (s, Fire g) ->
    fires c s (held g times) = [] /\ final c s (held g times) = s.
Proof.
  intros c s0 s g t0 times Hfire.
  apply held_quiet. rewrite (after_fire c s0 s g t0 Hfire). reflexivity.
Qed.

Lemma debounce_hold_witness :
  evaluate 30 initial (Some KidnapAlert) 100
  = ({| last_sms_time := 100; active_gesture := Some KidnapAlert;
        total_alerts := 1 |}, Fire KidnapAlert)
  /\ fires 30 {| last_sms_time := 100; active_gesture := Some KidnapAlert;
                 total_alerts := 1 |}
       (held KidnapAlert [101; 200; 5000]) = []
  /\ final 30 {| last_sms_time := 100; active_gesture := Some KidnapAlert;
                 total_alerts := 1 |}
       (held KidnapAlert [101; 200; 5000])
     = {| last_sms_time := 100; active_gesture := Some KidnapAlert;
          total_alerts := 1 |}.
Proof.
  split; [reflexivity |].
  apply (debounce_hold 30 initial _ KidnapAlert 100 [101; 200; 5000]).
  reflexivity.
Defined.

(** X7. Release and re-fire.  After a gesture fired at [t0], one frame
    without any gesture releases it; when the same gesture shows again
    at [t2] it fires again if [t2 - t0] exceeds the cooldown and stays
    silent otherwise. *)
Theorem refire_after_release :
  forall (c : Q) (s0 s : AlertState) (g : Gesture) (t0 t1 t2 : Q),
    evaluate c s0 (Some g) t0 = (s, Fire g) ->
    let frames := [ {| detected := None; time := t1 |};
                    {| detected := Some g; time := t2 |} ] in
    (c < t2 - t0 -> fires c s frames = [(g, t2)])
    /\ (t2 - t0 <= c -> fires c s frames = []).
Proof.
  intros c s0 s g t0 t1 t2 Hfire frames. subst frames.
  rewrite (after_fire c s0 s g t0 Hfire).
  split; intros Ht;
    rewrite fires_cons; cbn [detected time]; rewrite evaluate_absent; cbn [fst snd];
    rewrite fires_cons; cbn [detected time].
  - rewrite evaluate_fires; cbn [active_gesture last_sms_time fst snd];
      [reflexivity | discriminate | exact Ht].
  - rewrite evaluate_cooling; cbn [last_sms_time fst snd]; [reflexivity | exact Ht].
Qed.

Lemma refire_after_release_witness :
  let s := {| last_sms_time := 100; active_gesture := Some KidnapAlert;
              total_alerts := 1 |} in
  evaluate 30 initial (Some KidnapAlert) 100 = (s, Fire KidnapAlert)
  /\ fires 30 s [ {| detected := None; time := 101 |};
                  {| detected := Some KidnapAlert; time := 131 |} ]
     = [(KidnapAlert, 131)]
  /\ fires 30 s [ {| detected := None; time := 101 |};
                  {| detected := Some KidnapAlert; time := 130 |} ]
     = [].
Proof.
  intros s. split; [reflexivity |]. split.
  - apply (refire_after_release 30 initial s KidnapAlert 100 101 131);
      reflexivity.
  - apply (refire_after_release 30 initial s KidnapAlert 100 101 130);
      [reflexivity | discriminate].
Defined.

Lemma last_cons_default {A : Type} (l : list A) :
  forall a d : A, List.last (a :: l) d = List.last l a.
Proof.
  induction l as [| x l IH]; intros a d; [reflexivity |].
  change (List.last (a :: x :: l) d) with (List.last (x :: l) d).
  rewrite !IH. reflexivity.
Qed.

(** X8. Bookkeeping.  After any frames, [total_alerts] has grown by the
    number of [Fire] decisions and [last_sms_time] is the timestamp of
    the last of them (unchanged when there was none). *)
Theorem counters_follow_fires :
  forall (c : Q) (frames : list Frame) (s : AlertState),
    total_alerts (final c s frames)
    = (total_alerts s + Z.of_nat (List.length (fires c s frames)))%Z
    /\ last_sms_time (final c s frames)
       = List.last (map snd (fires c s frames)) (last_sms_time s).
Proof.
  intros c frames. induction frames as [| f rest IH]; intros s.
  - cbn. split; [lia | reflexivity].
  - cbn [final]. rewrite fires_cons.
    destruct (evaluate_case c s (detected f) (time f)) as [g Hd Ha Hc | g Hd Hb | Hd];
      match goal with
      | |- context [final c ?s' rest] => destruct (IH s') as [IHn IHt]
      end;
      rewrite IHn, IHt; cbn [total_alerts last_sms_time].
    + split.
      * cbn [List.length]. lia.
      * cbn [map snd]. rewrite last_cons_default. reflexivity.
    + split; reflexivity.
    + split; reflexivity.
Qed.

Lemma fires_in_frames (c : Q) (frames : list Frame) :
  forall (s : AlertState) (g : Gesture) (t : Q),
    In (g, t) (fires c s frames) ->
    In {| detected := Some g; time := t |} frames.
Proof.
  induction frames as [| f rest IH]; intros s g t Hin; [contradiction |].
  rewrite fires_cons in Hin.
  destruct (evaluate_case c s (detected f) (time f)) as [g' Hd Ha Hc | g' Hd Hb | Hd].
  - destruct Hin as [[= <- <-] | Hin].
    + left. destruct f as [d tm]. cbn in *. now subst.
    + right. eapply IH; exact Hin.
  - right. eapply IH; exact Hin.
  - right. eapply IH; exact Hin.
Qed.

(** X9. A [Fire] always carries the gesture detected on its own frame
    and that frame's timestamp: nothing fires for a gesture that was not
    detected, and nothing fires on a frame without a gesture. *)
Theorem fires_are_detected :
  forall (c : Q) (frames : list Frame) (s : AlertState) (g : Gesture) (t : Q),
    In (g, t) (fires c s frames) ->
    In {| detected := Some g; time := t |} frames.
Proof.
  intros c frames s g t. apply fires_in_frames.
Qed.

Lemma fires_are_detected_witness :
  In (CallPolice, 131)
     (fires 30 initial [ {| detected := Some KidnapAlert; time := 100 |};
                         {| detected := Some CallPolice; time := 131 |} ])
  /\ In {| detected := Some CallPolice; time := 131 |}
        [ {| detected := Some KidnapAlert; time := 100 |};
          {| detected := Some CallPolice; time := 131 |} ].
Proof.
  split; [right; left; reflexivity |].
  apply (fires_are_detected 30 _ initial CallPolice 131).
  right; left; reflexivity.
Defined.

Lemma spaced_bound (c b : Q) (ts : list Q) :
  0 <= c ->
  forall last,
    spaced c last ts -> Forall (fun t => t <= b) ts -> ts <> [] ->
    inject_Z (Z.of_nat (List.length ts)) * c < b - last.
Proof.
  intros Hc. induction ts as [| t rest IH]; intros last Hs Hb Hne;
    [contradiction |].
  destruct Hs as [Ht Hrest]. inversion Hb as [| ? ? Htb Hrb]; subst.
  cbn [List.length]. rewrite Nat2Z.inj_succ, <- Z.add_1_r, inject_Z_plus.
  change (inject_Z 1) with 1.
  set (n := inject_Z (Z.of_nat (List.length rest))) in *.
  assert (Hmul : (n + 1) * c == n * c + c) by ring.
  rewrite Hmul. clear Hmul.
  destruct rest as [| t' rest'].
  - assert (Hn : n * c == 0) by (subst n; cbn; ring).
    rewrite Hn. lra.
  - assert (IH' := IH t Hrest Hrb ltac:(discriminate)).
    fold n in IH'. lra.
Qed.

(** X10. Rate limit.  With a non-negative cooldown [c], if every frame
    has a timestamp of at most [b], then [n] fires, [n >= 1], need
    [n * c < b - last_sms_time]: started from the initial state, fewer
    than [b / c] alerts can fire before time [b]. *)
Theorem fires_rate_bound :
  forall (c b : Q) (s : AlertState) (frames : list Frame),
    0 <= c ->
    Forall (fun f => time f <= b) frames ->
    fires c s frames <> [] ->
    inject_Z (Z.of_nat (List.length (fires c s frames))) * c
    < b - last_sms_time s.
Proof.
  intros c b s frames Hc Hb Hne.
  rewrite <- (length_map snd).
  apply spaced_bound; [exact Hc | apply fires_spaced | |].
  - apply Forall_forall. intros t Hin. apply in_map_iff in Hin.
    destruct Hin as [[g t'] [<- Hin]]. cbn [snd].
    apply fires_in_frames in Hin.
    rewrite Forall_forall in Hb. apply (Hb _ Hin).
  - destruct (fires c s frames); [contradiction | discriminate].
Qed.

Lemma fires_rate_bound_witness :
  let frames := [ {| detected := Some KidnapAlert; time := 100 |};
                  {| detected := Some CallPolice; time := 131 |} ] in
  0 <= 30
  /\ Forall (fun f => time f <= 200) frames
  /\ fires 30 initial frames <> []
  /\ inject_Z (Z.of_nat (List.length (fires 30 initial frames))) * 30
     < 200 - last_sms_time initial.
Proof.
  cbv zeta.
  assert (H0 : 0 <= 30) by discriminate.
  assert (Hb : Forall (fun f => time f <= 200)
                 [ {| detected := Some KidnapAlert; time := 100 |};
                   {| detected := Some CallPolice; time := 131 |} ])
    by (repeat constructor; discriminate).
  assert (Hne : fires 30 initial
                  [ {| detected := Some KidnapAlert; time := 100 |};
                    {| detected := Some CallPolice; time := 131 |} ] <> [])
    by (vm_compute; discriminate).
  split; [exact H0 | split; [exact Hb | split; [exact Hne |]]].
  exact (fires_rate_bound 30 200 initial _ H0 Hb Hne).
Defined.

End EngineMore.

(** ** Alert dispatch *)

Section DispatchMore.

Import Dispatch Addressing LogFile.
Local Open Scope string_scope.
Local Open Scope list_scope.

(** X11. [get_location] never raises, makes exactly one lookup and
    leaves the log alone.  The city it returns is never the empty
    string, and unless the lookup returned an [ok] result with
    coordinates, it returns the Hyderabad fallback. *)
Theorem get_location_total :
  forall (env : Env) (w : World),
  exists lat lon city,
    get_location env w
    = (Returned (lat, lon, city),
       {| calls := calls w ++ [GeoLookup]; log := log w |})
    /\ city <> ""%string
    /\ ((forall g coords,
           geocoder_ip env = Returned g -> ok g = true ->
           latlng g = Some coords -> False)
        -> (lat, lon, city) = fallback_location).
Proof.
  intros env w. rewrite get_location_run. unfold location_of.
  destruct (geocoder_ip env) as [g | e] eqn:Hgeo;
    [destruct (ok g) eqn:Hok; [destruct (latlng g) as [[lat lon] |] eqn:Hll |] |].
  - exists lat, lon, (city_or_unknown (city g)). split; [reflexivity | split].
    + destruct (city g) as [[| c rest] |]; cbn; discriminate.
    + intros H. exfalso. exact (H g (lat, lon) eq_refl Hok Hll).
  - do 3 eexists. split; [reflexivity | split; [discriminate | reflexivity]].
  - do 3 eexists. split; [reflexivity | split; [discriminate | reflexivity]].
  - do 3 eexists. split; [reflexivity | split; [discriminate | reflexivity]].
Qed.

Lemma get_location_total_witness :
  exists lat lon city,
    get_location env_unconfigured empty_world
    = (Returned (lat, lon, city), {| calls := [GeoLookup]; log := [] |})
    /\ city <> ""%string
    /\ ((forall g coords,
           geocoder_ip env_unconfigured = Returned g -> ok g = true ->
           latlng g = Some coords -> False)
        -> (lat, lon, city) = fallback_location).
Proof.
  exact (get_location_total env_unconfigured empty_world).
Defined.

(** Names the cases of [path]. *)
Ltac path_cases Hp :=
  destruct Hp as [Hcl | cl st Hcl Hout | cl code Hcl Hout Hcode
                 | cl code number wm Hcl Hout Hcode Hto Hwa
                 | cl code number we Hcl Hout Hcode Hto Hwa
                 | cl code Hcl Hout Hcode Hto
                 | cl name Hcl Hout].

(** X12. When [send_alert] raises.  It raises [e] exactly in three
    cases: the SMS attempt ended in [e] and [e] is not a
    [TwilioRestException]; or no such thing happened and the alert cue
    raised [e]; or neither happened and writing the log file raised
    [e].  Whenever it raises, nothing has been appended to the log. *)
Theorem send_alert_raises_iff :
  forall (env : Env) (shot gesture : string) (w : World) (e : exn),
    (fst (send_alert env shot gesture w) = Raised e
     <-> (primary_foreign_failure env gesture = true
          /\ exists cl, client env = Some cl
                        /\ primary_outcome env cl gesture = Raised e)
         \/ (primary_foreign_failure env gesture = false
             /\ play_alert_sound env = Raised e)
         \/ (primary_foreign_failure env gesture = false
             /\ returns (play_alert_sound env) = true
             /\ log_write env = Raised e))
    /\ (fst (send_alert env shot gesture w) = Raised e
        -> log (snd (send_alert env shot gesture w)) = log w).
Proof.
  intros env shot gesture w e.
  destruct (send_alert_path env gesture) as (o & twilio & Hp & Hrun).
  rewrite Hrun.
  destruct (path_attempts env gesture o twilio Hp) as (_ & _ & _ & Hf).
  rewrite Hf. unfold around.
  destruct o as [[ok_flag method] | x].
  - destruct (play_alert_sound env) as [[] | x];
      [destruct (log_write env) as [[] | x] |]; cbn [fst snd log returns];
      (split; [split | reflexivity || discriminate]).
    + discriminate.
    + intros [[Habs _] | [[_ Habs] | [_ [_ Habs]]]]; discriminate Habs.
    + intros [= ->]. right; right. repeat split.
    + intros [[Habs _] | [[_ Habs] | [_ [_ [= ->]]]]];
        [discriminate Habs | discriminate Habs | reflexivity].
    + intros [= ->]. right; left. repeat split.
    + intros [[Habs _] | [[_ [= ->]] | [_ [Habs _]]]];
        [discriminate Habs | reflexivity | discriminate Habs].
  - cbn [fst snd log]. split; [split | reflexivity].
    + intros [= <-]. left. split; [reflexivity |].
      inversion Hp as [| | | | | | cl name Hcl Hout]; subst.
      exists cl. split; assumption.
    + intros [[_ (cl' & Hcl' & Ho)] | [[Habs _] | [Habs _]]];
        try discriminate Habs.
      inversion Hp as [| | | | | | cl name Hcl Hout]; subst.
      assert (cl' = cl) as -> by congruence. congruence.
Qed.

Lemma send_alert_raises_iff_witness :
  fst (send_alert env_log_unwritable "shot.jpg" "Kidnap Alert" empty_world)
  = Raised (OtherException "FileNotFoundError")
  /\ log (snd (send_alert env_log_unwritable "shot.jpg" "Kidnap Alert"
                 empty_world))
     = log empty_world.
Proof.
  split; [reflexivity |].
  apply (send_alert_raises_iff env_log_unwritable "shot.jpg" "Kidnap Alert"
           empty_world (OtherException "FileNotFoundError")).
  reflexivity.
Defined.

Lemma primary_calls_addressed (env : Env) (cl : Client) (gesture : string) :
  Forall (well_addressed env gesture) (primary_calls env cl gesture).
Proof.
  unfold primary_calls. destruct (messages_create cl _);
    repeat constructor.
Qed.

(** X13. Order of the outside calls of one dispatch: first the location
    lookup, once; then the Twilio calls, every send carrying the same
    text, the SMS from the Twilio number to the recipient, the WhatsApp
    message from the sandbox number to ["whatsapp:"] followed by the
    recipient; last the alert cue, once, which is left out only when
    the SMS attempt ended in an exception that is not a
    [TwilioRestException]. *)
Theorem dispatch_call_order :
  forall (env : Env) (shot gesture : string) (w : World),
  exists twilio,
    calls (snd (send_alert env shot gesture w))
    = calls w ++ GeoLookup :: twilio
        ++ (if primary_foreign_failure env gesture then [] else [AlertSound])
    /\ Forall (well_addressed env gesture) twilio.
Proof.
  intros env shot gesture w.
  destruct (send_alert_path env gesture) as (o & twilio & Hp & Hrun).
  rewrite Hrun. exists twilio.
  destruct (path_attempts env gesture o twilio Hp) as (_ & _ & _ & Hf).
  rewrite Hf. split.
  - unfold around. destruct o as [[ok_flag method] | x];
      [destruct (play_alert_sound env); [destruct (log_write env) |] |];
      cbn [snd calls]; rewrite ?app_nil_r; reflexivity.
  - path_cases Hp;
      [ constructor
      | apply primary_calls_addressed
      | apply primary_calls_addressed
      | | | apply primary_calls_addressed
      | apply primary_calls_addressed ];
      (apply Forall_app; split;
       [ apply primary_calls_addressed
       | constructor;
         [exists number; split; [exact Hto | reflexivity] | constructor] ]).
Qed.

Lemma append_assoc_str (a b c : string) : ((a ++ b) ++ c = a ++ (b ++ c))%string.
Proof. induction a as [| x a IH]; cbn; [reflexivity | now rewrite IH]. Qed.

Lemma append_empty_r (a : string) : (a ++ "")%string = a.
Proof. induction a as [| x a IH]; cbn; [reflexivity | now rewrite IH]. Qed.

Lemma concat_snoc (l : list string) (x : string) :
  concat "" (l ++ [x]) = (concat "" l ++ x)%string.
Proof.
  induction l as [| a l IH]; [reflexivity |].
  destruct l as [| b l].
  - reflexivity.
  - change (concat "" ((a :: b :: l) ++ [x]))
      with (a ++ "" ++ concat "" ((b :: l) ++ [x]))%string.
    rewrite IH.
    change (concat "" (a :: b :: l)) with (a ++ "" ++ concat "" (b :: l))%string.
    cbn [append]. now rewrite append_assoc_str.
Qed.

(** X14. The log file is only ever appended to: after a dispatch its
    text is the text before, followed either by nothing or by the
    rendering of one record. *)
Theorem log_text_append_only :
  forall (env : Env) (shot gesture : string) (w : World),
    log_text (snd (send_alert env shot gesture w)) = log_text w
    \/ exists r,
         log_text (snd (send_alert env shot gesture w))
         = (log_text w ++ render r)%string.
Proof.
  intros env shot gesture w.
  destruct (send_alert_path env gesture) as (o & twilio & Hp & Hrun).
  rewrite Hrun. unfold around, log_text.
  destruct o as [[ok_flag method] | e];
    [destruct (play_alert_sound env); [destruct (log_write env) |] |];
    cbn [snd log]; [right | left; reflexivity | left; reflexivity | left; reflexivity].
  exists (record_of env shot gesture ok_flag method).
  rewrite map_app. cbn [map]. apply concat_snoc.
Qed.

Lemma single_line_app (a b : string) :
  single_line (a ++ b) = single_line a && single_line b.
Proof.
  induction a as [| c a IH]; cbn; [reflexivity |].
  rewrite IH. now rewrite andb_assoc.
Qed.

(** X15. One record, one line: when none of the text fields of a record
    holds a line feed, its rendering is a text without line feed
    followed by exactly one line feed. *)
Theorem render_single_line :
  forall r : DeliveryRecord,
    single_line (timestamp r) = true ->
    single_line (gesture_name r) = true ->
    single_line (location_city r) = true ->
    single_line (method_used r) = true ->
    single_line (screenshot_path r) = true ->
    exists line,
      render r = (line ++ String line_feed "")%string
      /\ single_line line = true.
Proof.
  intros r Ht Hg Hc Hm Hs.
  exists ("[" ++ timestamp r ++ "] " ++ gesture_name r ++ " | " ++ location_city r
          ++ " | " ++ method_used r ++ ": " ++ str_of_bool (success r)
          ++ " | Screenshot: " ++ screenshot_path r)%string.
  split.
  - unfold render. rewrite !append_assoc_str. reflexivity.
  - rewrite !single_line_app, Ht, Hg, Hc, Hm, Hs.
    destruct (success r); reflexivity.
Qed.

Lemma render_single_line_witness :
  exists line,
    render (record_of env_blocked "shot.jpg" "Kidnap Alert" true "WhatsApp")
    = (line ++ String line_feed "")%string
    /\ single_line line = true.
Proof.
  apply (render_single_line
           (record_of env_blocked "shot.jpg" "Kidnap Alert" true "WhatsApp"));
    reflexivity.
Defined.

(** X21. Log-only mode.  If either Twilio credential is unset or empty
    at start-up, there is no client, and a dispatch whose alert cue
    returns and whose log file can be written makes no Twilio call at
    all: it looks up the location, sounds the cue and appends one
    record that names "SMS" and reports failure. *)
Theorem log_only_without_credentials :
  forall (account_sid auth_token : option string)
         (connect : string -> string -> Client)
         (env : Env) (shot gesture : string) (w : World),
    Startup.truthy account_sid = false \/ Startup.truthy auth_token = false ->
    client env = Startup.startup_client account_sid auth_token connect ->
    play_alert_sound env = Returned tt ->
    log_write env = Returned tt ->
    send_alert env shot gesture w
    = (Returned tt,
       {| calls := calls w ++ [GeoLookup; AlertSound];
          log := log w ++ [record_of env shot gesture false "SMS"] |}).
Proof.
  intros account_sid auth_token connect env shot gesture w Hcred Hclient Hsound Hlog.
  assert (Hnone : client env = None).
  { rewrite Hclient. unfold Startup.startup_client.
    destruct account_sid as [a |], auth_token as [b |]; try reflexivity.
    destruct Hcred as [-> | ->]; rewrite ?andb_false_r; reflexivity. }
  destruct (send_alert_path env gesture) as (o & twilio & Hp & Hrun).
  rewrite Hrun. unfold around.
  path_cases Hp; try congruence.
  rewrite Hsound, Hlog. reflexivity.
Qed.

Lemma log_only_without_credentials_witness :
  (Startup.truthy (Some "AC123") = false \/ Startup.truthy (Some "") = false)
  /\ client env_unconfigured
     = Startup.startup_client (Some "AC123") (Some "") (fun _ _ => blocked_client)
  /\ send_alert env_unconfigured "shot.jpg" "Kidnap Alert" empty_world
     = (Returned tt,
        {| calls := [GeoLookup; AlertSound];
           log := [record_of env_unconfigured "shot.jpg" "Kidnap Alert"
                     false "SMS"] |}).
Proof.
  split; [right; reflexivity | split; [reflexivity |]].
  apply (log_only_without_credentials (Some "AC123") (Some "")
           (fun _ _ => blocked_client) env_unconfigured "shot.jpg" "Kidnap Alert"
           empty_world).
  - right; reflexivity.
  - reflexivity.
  - reflexivity.
  - reflexivity.
Defined.

End DispatchMore.

(** ** The frame loop *)

Section MainLoopFacts.

Import Classifier Engine Dispatch MainLoop.
Local Open Scope Q_scope.
Local Open Scope list_scope.

Lemma first_gesture_returns (hs : list HandLandmarks) :
  exists gesture_detected, first_gesture hs = Returned gesture_detected.
Proof.
  induction hs as [| h rest IH]; [now exists None |].
  cbn [first_gesture].
  destruct (fingers_up_encodes h) as [f ->].
  replace (classify_gesture (encode f)) with (Returned (classify_table f))
    by (destruct f as [[] [] [] [] []]; reflexivity).
  destruct (classify_table f) as [g |]; [now exists (Some g) | exact IH].
Qed.

Lemma frame_of_returned (t : Tick) (gesture_detected : option Gesture) :
  first_gesture (hands t) = Returned gesture_detected ->
  frame_of t = {| detected := gesture_detected; time := now t |}.
Proof. intros H. unfold frame_of. rewrite H. reflexivity. Qed.

(** What a call of [send_alert] leaves behind: it returns and has
    appended one record, for the gesture and the screenshot it was
    called with, or it raises and has appended nothing. *)
Lemma send_alert_outcome (e : Env) (shot gesture : string) (w : World) :
  (exists r,
      fst (send_alert e shot gesture w) = Returned tt
      /\ log (snd (send_alert e shot gesture w)) = log w ++ [r]
      /\ screenshot_path r = shot /\ gesture_name r = gesture)
  \/ (exists x,
         fst (send_alert e shot gesture w) = Raised x
         /\ log (snd (send_alert e shot gesture w)) = log w).
Proof.
  destruct (send_alert_path e gesture) as (o & twilio & Hp & Hrun).
  rewrite Hrun. unfold around.
  destruct o as [[ok_flag method] | x];
    [destruct (play_alert_sound e) as [[] | x];
     [destruct (log_write e) as [[] | x] |] |];
    cbn [fst snd log].
  - left. exists (record_of e shot gesture ok_flag method). repeat split.
  - right. now exists x.
  - right. now exists x.
  - right. now exists x.
Qed.

(** Takes one pass of the loop apart. *)
Ltac one_pass t s :=
  cbn [main_loop];
  destruct (is_opened t); cbn [negb];
  [destruct (read_ok t); cbn [negb];
   [let gd := fresh "gd" in
    let Hgd := fresh "Hgd" in
    destruct (first_gesture_returns (hands t)) as [gd Hgd];
    rewrite Hgd; try rewrite (frame_of_returned t gd Hgd);
    let a' := fresh "a'" in
    let d := fresh "d" in
    let He := fresh "He" in
    destruct (evaluate _ (alert s) gd (now t)) as [a' d] eqn:He;
    destruct d as [g |]
   | ]
  | ].

(** The loop and the decision function run in step: after the loop has
    gone through its ticks, the calls of [send_alert] it made are the
    [Fire] decisions on the frames it processed, and its loop variables
    are those of the decision function. *)
Lemma main_loop_prefix (cfg : Config) (ticks : list Tick) :
  forall s : Session,
  exists n : nat,
    (n <= List.length ticks)%nat
    /\ dispatched (snd (main_loop cfg ticks s))
       = dispatched s
           ++ fires (SMS_COOLDOWN cfg) (alert s) (firstn n (map frame_of ticks))
    /\ alert (snd (main_loop cfg ticks s))
       = final (SMS_COOLDOWN cfg) (alert s) (firstn n (map frame_of ticks))
    /\ (fst (main_loop cfg ticks s) = StillRunning -> n = List.length ticks).
Proof.
  induction ticks as [| t rest IH]; intros s.
  - exists 0%nat. cbn. rewrite app_nil_r. repeat split; lia.
  - assert (Hstop : exists n : nat,
               (n <= List.length (t :: rest))%nat
               /\ dispatched s
                  = dispatched s
                      ++ fires (SMS_COOLDOWN cfg) (alert s)
                           (firstn n (map frame_of (t :: rest)))
               /\ alert s
                  = final (SMS_COOLDOWN cfg) (alert s)
                      (firstn n (map frame_of (t :: rest)))
               /\ (LoopLeft = StillRunning -> n = List.length (t :: rest))).
    { exists 0%nat. cbn. rewrite app_nil_r.
      repeat split; try lia; discriminate. }
    cbn [map]. one_pass t s; try exact Hstop.
    + destruct (send_alert (env t) _ (gesture_label g) (world s)) as [r w'].
      destruct r as [[] | x]; [destruct (quit_key (key t)) |].
      * exists 1%nat. cbn [firstn fst snd dispatched alert List.length final].
        rewrite fires_cons. cbn [detected time]. rewrite He. cbn [fst snd fires].
        repeat split; try lia; discriminate.
      * match goal with
        | |- context [main_loop cfg rest ?s'] =>
            destruct (IH s') as (n & Hn & Hd & Ha & Hrun)
        end.
        exists (S n). cbn [firstn List.length final].
        rewrite fires_cons. cbn [detected time]. rewrite He. cbn [fst snd].
        rewrite Hd, Ha. cbn [dispatched alert].
        rewrite <- app_assoc. cbn [app].
        repeat split; try lia. intros H. now rewrite (Hrun H).
      * exists 1%nat. cbn [firstn fst snd dispatched alert List.length final].
        rewrite fires_cons. cbn [detected time]. rewrite He. cbn [fst snd fires].
        repeat split; try lia; discriminate.
    + destruct (quit_key (key t)).
      * exists 1%nat. cbn [firstn fst snd dispatched alert List.length final].
        rewrite fires_cons. cbn [detected time]. rewrite He. cbn [fst snd fires].
        rewrite app_nil_r.
        repeat split; try lia; discriminate.
      * match goal with
        | |- context [main_loop cfg rest ?s'] =>
            destruct (IH s') as (n & Hn & Hd & Ha & Hrun)
        end.
        exists (S n). cbn [firstn List.length final].
        rewrite fires_cons. cbn [detected time]. rewrite He. cbn [fst snd].
        rewrite Hd, Ha. cbn [dispatched alert].
        repeat split; try lia. intros H. now rewrite (Hrun H).
Qed.

(** X16. The loop of [main] and the decision function agree.  For a run
    started afresh, the calls of [send_alert] made by the loop are
    exactly the [Fire] decisions, in order and with their timestamps,
    on the frames the loop processed (all of them while the loop is
    still running), and the loop variables are the state the decision
    function reaches on those frames. *)
Theorem main_follows_decisions :
  forall (cfg : Config) (ticks : list Tick) (w : World),
  exists n : nat,
    (n <= List.length ticks)%nat
    /\ dispatched (snd (main_loop cfg ticks (fresh w)))
       = fires (SMS_COOLDOWN cfg) initial (firstn n (map frame_of ticks))
    /\ alert (snd (main_loop cfg ticks (fresh w)))
       = final (SMS_COOLDOWN cfg) initial (firstn n (map frame_of ticks))
    /\ (fst (main_loop cfg ticks (fresh w)) = StillRunning
        -> n = List.length ticks).
Proof.
  intros cfg ticks w.
  destruct (main_loop_prefix cfg ticks (fresh w)) as (n & Hn & Hd & Ha & Hrun).
  exists n. repeat split; assumption.
Qed.

(** X17. In a run of [main] with a non-negative cooldown, any two calls
    of [send_alert] are more than the cooldown apart in loop time, the
    later one after the earlier one. *)
Theorem main_alerts_spaced :
  forall (cfg : Config) (ticks : list Tick) (w : World)
         (i j : nat) (g1 g2 : Gesture) (t1 t2 : Q),
    0 <= SMS_COOLDOWN cfg ->
    (i < j)%nat ->
    nth_error (dispatched (snd (main_loop cfg ticks (fresh w)))) i = Some (g1, t1) ->
    nth_error (dispatched (snd (main_loop cfg ticks (fresh w)))) j = Some (g2, t2) ->
    SMS_COOLDOWN cfg < t2 - t1.
Proof.
  intros cfg ticks w i j g1 g2 t1 t2 Hc Hij Hi Hj.
  destruct (main_loop_prefix cfg ticks (fresh w)) as (n & _ & Hd & _ & _).
  cbn [fresh dispatched alert app] in Hd. rewrite Hd in Hi, Hj.
  apply (spaced_pair (SMS_COOLDOWN cfg)
           (map snd (fires (SMS_COOLDOWN cfg) initial (firstn n (map frame_of ticks))))
           Hc (last_sms_time initial) i j).
  - apply fires_spaced.
  - exact Hij.
  - rewrite nth_error_map, Hi. reflexivity.
  - rewrite nth_error_map, Hj. reflexivity.
Qed.

Lemma main_alerts_spaced_witness :
  0 <= SMS_COOLDOWN cfg30
  /\ dispatched (snd (main_loop cfg30 sample_ticks (fresh empty_world)))
     = [(KidnapAlert, 100); (KidnapAlert, 131)]
  /\ SMS_COOLDOWN cfg30 < 131 - 100.
Proof.
  split; [discriminate | split; [reflexivity |]].
  apply (main_alerts_spaced cfg30 sample_ticks empty_world 0 1
           KidnapAlert KidnapAlert 100 131).
  - discriminate.
  - lia.
  - reflexivity.
  - reflexivity.
Defined.

Lemma evaluate_noop_total (c : Q) (a a' : AlertState) (d : option Gesture) (t : Q) :
  evaluate c a d t = (a', NoOp) -> total_alerts a' = total_alerts a.
Proof.
  intros He. pose proof (evaluate_case c a d t) as Hc. rewrite He in Hc.
  cbn [fst snd] in Hc. inversion Hc; subst; reflexivity.
Qed.

Lemma evaluate_fire_total (c : Q) (a a' : AlertState) (d : option Gesture)
    (g : Gesture) (t : Q) :
  evaluate c a d t = (a', Fire g) -> total_alerts a' = (total_alerts a + 1)%Z.
Proof.
  intros He. pose proof (evaluate_case c a d t) as Hc. rewrite He in Hc.
  cbn [fst snd] in Hc. inversion Hc; subst; reflexivity.
Qed.

(** What a run adds: screenshots, log records and calls of
    [send_alert], and how they correspond. *)
Lemma main_loop_books (cfg : Config) (ticks : list Tick) :
  forall s : Session,
  exists (shots : list string) (recs : list DeliveryRecord)
         (ds : list (Gesture * Q)),
    screenshots (snd (main_loop cfg ticks s)) = screenshots s ++ shots
    /\ log (world (snd (main_loop cfg ticks s))) = log (world s) ++ recs
    /\ dispatched (snd (main_loop cfg ticks s)) = dispatched s ++ ds
    /\ List.length ds = List.length shots
    /\ total_alerts (alert (snd (main_loop cfg ticks s)))
       = (total_alerts (alert s) + Z.of_nat (List.length shots))%Z
    /\ map screenshot_path recs = firstn (List.length recs) shots
    /\ map gesture_name recs
       = firstn (List.length recs) (map (fun d => gesture_label (fst d)) ds)
    /\ match fst (main_loop cfg ticks s) with
       | Escaped _ => List.length shots = S (List.length recs)
       | _ => List.length recs = List.length shots
       end.
Proof.
  induction ticks as [| t rest IH]; intros s.
  - exists [], [], []. cbn. rewrite !app_nil_r. repeat split; lia.
  - assert (Hstop : forall s0 : Session, s0 = s ->
               exists (shots : list string) (recs : list DeliveryRecord)
                      (ds : list (Gesture * Q)),
                 screenshots s0 = screenshots s ++ shots
                 /\ log (world s0) = log (world s) ++ recs
                 /\ dispatched s0 = dispatched s ++ ds
                 /\ List.length ds = List.length shots
                 /\ total_alerts (alert s0)
                    = (total_alerts (alert s) + Z.of_nat (List.length shots))%Z
                 /\ map screenshot_path recs = firstn (List.length recs) shots
                 /\ map gesture_name recs
                    = firstn (List.length recs)
                        (map (fun d => gesture_label (fst d)) ds)
                 /\ List.length recs = List.length shots).
    { intros s0 ->. exists [], [], []. cbn. rewrite !app_nil_r. repeat split; lia. }
    one_pass t s; try (cbn [fst snd]; apply Hstop; reflexivity).
    + apply evaluate_fire_total in He.
      match goal with
      | |- context [send_alert (env t) ?p (gesture_label g) (world s)] =>
          pose proof (send_alert_outcome (env t) p (gesture_label g) (world s)) as Ho;
          destruct (send_alert (env t) p (gesture_label g) (world s)) as [r w'];
          set (path := p) in *
      end.
      cbn [fst snd] in Ho.
      destruct Ho as [(rec & -> & Hlog & Hp & Hg) | (x & -> & Hlog)];
        [destruct (quit_key (key t)) |].
      * exists [path], [rec], [(g, now t)]. cbn [fst snd screenshots world dispatched alert].
        rewrite Hlog, He. cbn. rewrite Hp, Hg. repeat split.
      * match goal with
        | |- context [main_loop cfg rest ?s'] =>
            destruct (IH s')
              as (shots & recs & ds & Hs & Hl & Hd & Hlen & Ht & Hps & Hgs & Hex)
        end.
        exists (path :: shots), (rec :: recs), ((g, now t) :: ds).
        rewrite Hs, Hl, Hd, Ht. cbn [screenshots world dispatched alert].
        rewrite Hlog, He, <- !app_assoc. cbn [app List.length map firstn fst].
        rewrite Hps, Hgs, Hp, Hg, Hlen.
        repeat split; try lia.
        destruct (fst (main_loop cfg rest _)); lia.
      * exists [path], [], [(g, now t)]. cbn [fst snd screenshots world dispatched alert].
        rewrite Hlog, He, app_nil_r. cbn. repeat split.
    + apply evaluate_noop_total in He.
      destruct (quit_key (key t)).
      * exists [], [], []. cbn [fst snd screenshots world dispatched alert].
        rewrite He, !app_nil_r. cbn. repeat split; lia.
      * match goal with
        | |- context [main_loop cfg rest ?s'] =>
            destruct (IH s')
              as (shots & recs & ds & Hs & Hl & Hd & Hlen & Ht & Hps & Hgs & Hex)
        end.
        exists shots, recs, ds.
        rewrite Hs, Hl, Hd, Ht. cbn [screenshots world dispatched alert].
        rewrite He. repeat split; assumption.
Qed.

(** X18. Books of a run of [main].  The run writes one screenshot per
    call of [send_alert], and [total_alerts] counts them.  If no
    exception ended the run, the log has gained exactly one record per
    alert, in order, each naming the gesture of its alert and the path
    of its screenshot.  If an exception ended the run, this holds for
    all alerts but the last, which has a screenshot and no record. *)
Theorem main_books :
  forall (cfg : Config) (ticks : list Tick) (w : World),
  exists recs : list DeliveryRecord,
    let s := snd (main_loop cfg ticks (fresh w)) in
    let labels := map (fun d => gesture_label (fst d)) (dispatched s) in
    log (world s) = log w ++ recs
    /\ List.length (dispatched s) = List.length (screenshots s)
    /\ total_alerts (alert s) = Z.of_nat (List.length (screenshots s))
    /\ match fst (main_loop cfg ticks (fresh w)) with
       | Escaped _ =>
           map screenshot_path recs = removelast (screenshots s)
           /\ map gesture_name recs = removelast labels
       | _ =>
           map screenshot_path recs = screenshots s
           /\ map gesture_name recs = labels
       end.
Proof.
  intros cfg ticks w.
  destruct (main_loop_books cfg ticks (fresh w))
    as (shots & recs & ds & Hs & Hl & Hd & Hlen & Ht & Hps & Hgs & Hex).
  exists recs. cbv zeta.
  cbn [fresh screenshots world dispatched alert total_alerts initial app] in *.
  rewrite Hs, Hd, Ht. repeat split; try assumption; try lia.
  assert (Hlabels : List.length (map (fun d => gesture_label (fst d)) ds)
                    = List.length shots) by (rewrite length_map; exact Hlen).
  destruct (fst (main_loop cfg ticks _)).
  - rewrite Hps, Hgs, Hex. rewrite <- Hlabels at 2. now rewrite !firstn_all.
  - rewrite Hps, Hgs, Hex. rewrite <- Hlabels at 2. now rewrite !firstn_all.
  - rewrite Hps, Hgs. rewrite !removelast_firstn_len.
    rewrite Hlabels, Hex. split; reflexivity.
Qed.

Lemma quit_key_mod (k : Z) : quit_key k = true <-> (k mod 256 = 113)%Z.
Proof.
  unfold quit_key. rewrite Z.eqb_eq.
  change 255%Z with (Z.ones 8). rewrite Z.land_ones by lia.
  change (2 ^ 8)%Z with 256%Z. tauto.
Qed.

(** X19. Quitting.  Only the low byte of the key code is compared with
    the code of [q]: the test holds exactly when the key code is 113
    modulo 256.  A pass with such a key is the last one: the loop
    processes nothing after it, whatever follows.  A pass with any
    other key, on an open capture that delivered a frame and out of
    which no exception escaped, does not leave the loop: the loop goes
    on with the next pass from the state that pass left. *)
Theorem quit_key_stops :
  forall (cfg : Config) (t : Tick) (rest : list Tick) (s : Session),
    (forall k, quit_key k = true <-> (k mod 256 = 113)%Z)
    /\ ((key t mod 256 = 113)%Z ->
        main_loop cfg (t :: rest) s = main_loop cfg [t] s
        /\ fst (main_loop cfg (t :: rest) s) <> StillRunning)
    /\ ((key t mod 256 <> 113)%Z ->
        is_opened t = true -> read_ok t = true ->
        (forall e, fst (main_loop cfg [t] s) <> Escaped e) ->
        fst (main_loop cfg [t] s) = StillRunning
        /\ main_loop cfg (t :: rest) s
           = main_loop cfg rest (snd (main_loop cfg [t] s))).
Proof.
  intros cfg t rest s.
  split; [exact quit_key_mod | split].
  - intros Hk. apply quit_key_mod in Hk.
    cbn [main_loop].
    destruct (is_opened t); cbn [negb]; [| split; [reflexivity | discriminate]].
    destruct (read_ok t); cbn [negb]; [| split; [reflexivity | discriminate]].
    destruct (first_gesture (hands t)) as [gd | e];
      [| split; [reflexivity | discriminate]].
    destruct (evaluate (SMS_COOLDOWN cfg) (alert s) gd (now t)) as [a' [g |]].
    + destruct (send_alert (env t) _ (gesture_label g) (world s)) as [[[] | e] w'];
        rewrite ?Hk; split; try reflexivity; discriminate.
    + rewrite Hk. split; [reflexivity | discriminate].
  - intros Hk Hopen Hread Hesc.
    assert (Hq : quit_key (key t) = false).
    { destruct (quit_key (key t)) eqn:E; [| reflexivity].
      apply quit_key_mod in E. contradiction. }
    revert Hesc. cbn [main_loop]. rewrite Hopen, Hread, Hq. cbn [negb].
    destruct (first_gesture (hands t)) as [gd | e];
      [| intros Hesc; exfalso; now apply (Hesc e)].
    destruct (evaluate (SMS_COOLDOWN cfg) (alert s) gd (now t)) as [a' [g |]].
    + destruct (send_alert (env t) _ (gesture_label g) (world s)) as [[[] | e] w'];
        intros Hesc; [split; reflexivity | exfalso; now apply (Hesc e)].
    + intros _. split; reflexivity.
Qed.

Lemma quit_key_stops_witness :
  let quitting := tick_at env_unconfigured [kidnap_hand] 100 369 in
  let going := tick_at env_unconfigured [kidnap_hand] 100 (-1) in
  (369 mod 256 = 113)%Z
  /\ main_loop cfg30 (quitting :: sample_ticks) (fresh empty_world)
     = main_loop cfg30 [quitting] (fresh empty_world)
  /\ fst (main_loop cfg30 (quitting :: sample_ticks) (fresh empty_world))
     <> StillRunning
  /\ (-1 mod 256 <> 113)%Z
  /\ fst (main_loop cfg30 [going] (fresh empty_world)) = StillRunning
  /\ main_loop cfg30 (going :: sample_ticks) (fresh empty_world)
     = main_loop cfg30 sample_ticks
         (snd (main_loop cfg30 [going] (fresh empty_world))).
Proof.
  intros quitting going.
  destruct (quit_key_stops cfg30 quitting sample_ticks (fresh empty_world))
    as (_ & Hquit & _).
  destruct (quit_key_stops cfg30 going sample_ticks (fresh empty_world))
    as (_ & _ & Hgo).
  assert (H369 : (369 mod 256 = 113)%Z) by reflexivity.
  assert (Hm1 : (-1 mod 256 <> 113)%Z) by (vm_compute; discriminate).
  destruct (Hquit H369) as [Hsame Hleft].
  destruct (Hgo Hm1 eq_refl eq_refl) as [Hrun Hnext].
  { intros e. vm_compute. discriminate. }
  repeat split; assumption.
Defined.

Lemma send_alert_returns (e : Env) (shot gesture : string) (w : World) :
  play_alert_sound e = Returned tt ->
  log_write e = Returned tt ->
  primary_foreign_failure e gesture = false ->
  fst (send_alert e shot gesture w) = Returned tt.
Proof.
  intros Hsound Hlog Hforeign.
  destruct (send_alert_path e gesture) as (o & twilio & Hp & Hrun).
  rewrite Hrun. unfold around. rewrite Hsound, Hlog.
  destruct (path_attempts e gesture o twilio Hp) as (_ & _ & _ & Hf).
  rewrite Hforeign in Hf.
  destruct o as [[ok_flag method] | x]; [reflexivity | discriminate Hf].
Qed.

(** X20. Delivery failures do not stop the loop.  As long as, on every
    pass, the alert cue works, the log file can be written and the SMS
    attempt does not end in an exception other than
    [TwilioRestException], no exception ever leaves the loop of
    [main]: rejected and blocked messages, failed WhatsApp sends, a
    missing recipient number, missing credentials and failed location
    lookups are all absorbed. *)
Theorem main_keeps_running :
  forall (cfg : Config) (ticks : list Tick) (s : Session) (e : exn),
    Forall calm ticks ->
    fst (main_loop cfg ticks s) <> Escaped e.
Proof.
  intros cfg ticks s e Hcalm. revert s.
  induction Hcalm as [| t rest (Hsound & Hlog & Hforeign) _ IH]; intros s;
    [discriminate |].
  one_pass t s; try discriminate.
  - match goal with
    | |- context [send_alert (env t) ?p (gesture_label g) (world s)] =>
        pose proof (send_alert_returns (env t) p (gesture_label g) (world s)
                      Hsound Hlog (Hforeign g)) as Hret;
        destruct (send_alert (env t) p (gesture_label g) (world s)) as [r w']
    end.
    cbn [fst] in Hret. subst r.
    destruct (quit_key (key t)); [discriminate | apply IH].
  - destruct (quit_key (key t)); [discriminate | apply IH].
Qed.

Lemma main_keeps_running_witness :
  Forall calm sample_ticks
  /\ fst (main_loop cfg30 sample_ticks (fresh empty_world))
     <> Escaped (OtherException "RuntimeError").
Proof.
  assert (H : Forall calm sample_ticks).
  { repeat constructor. }
  split; [exact H |].
  exact (main_keeps_running cfg30 sample_ticks (fresh empty_world)
           (OtherException "RuntimeError") H).
Defined.

End MainLoopFacts.
